(** * product_price_tracker: price tracking and history analytics

    A shallow embedding of [utils/common.py], [utils/db.py] and
    [utils/playwright_price_scraper.py], and the properties of the
    tracking run, of the price ledger and of the evaluation rules.

    Conventions of the embedding.
    - A Python [float] (a price, a threshold, a percentage) is the
      rational [Q] it is equal to, and the infinities are the rationals
      [2 ** 1024] and [- 2 ** 1024], which compare with the binary64
      numbers as the infinities do. The result of [-], [*], [/],
      [round(x, 2)] and [float(s)] is the exact result rounded to the
      nearest binary64 number, ties to even, and an infinity when that
      number is out of range. The comparisons and [max] are exact. The
      truth value of a float is [x != 0]; a division raises
      [ZeroDivisionError] on a zero divisor. NaN has no counterpart: it
      arises from infinite operands only (an infinity minus itself or
      over an infinity, zero times an infinity), which the prices of the
      scrapers, floats, are not. The sign of a zero is not kept.
    - A string is its text in UTF-8, one [ascii] per byte. The classes of
      characters ([\d], the whitespace of [strip], the letters of
      [lower]) are those of ASCII: on text with other characters Python
      knows more digits, spaces and letters, and the properties that
      read the text of a catalog are stated for ASCII text.
    - Exceptions are values of [exn], carried by [result].
    - The [price_history] table is the list of its rows in insertion
      order; [datetime.now()] is an explicit argument of [save_price].
    - Python lists that are appended to live in a store of list objects,
      addressed by references, so that two names bound to one list share
      its contents. *)

From Stdlib Require Import QArith Qround Qabs Qpower ZArith String Ascii List.
From Stdlib Require Import Lia Lqa.
From Stdlib Require Import Sorted Permutation.
From stdpp Require Import gmap strings.

Local Open Scope string_scope.
Local Open Scope Q_scope.

(** ** Python values and exceptions *)

Module Py.

Inductive exn : Type :=
| ZeroDivisionError
| ValueError
| KeyError
| AttributeError
| FileNotFoundError.

Inductive result (A : Type) : Type :=
| Ok (a : A)
| Raise (e : exn).
Arguments Ok {A} a.
Arguments Raise {A} e.

Definition bind {A B : Type} (m : result A) (k : A -> result B) : result B :=
  match m with
  | Ok a => k a
  | Raise e => Raise e
  end.

(** [try: m  except (e1, e2, ...): h] *)
Definition try_except {A : Type} (m : result A) (caught : exn -> bool)
           (h : exn -> result A) : result A :=
  match m with
  | Ok a => Ok a
  | Raise e => if caught e then h e else Raise e
  end.

(** Every class of [exn] derives from [Exception]. *)
Definition is_Exception (e : exn) : bool := true.

(** *** Floats *)

Definition ltb (x y : Q) : bool := negb (Qle_bool y x).
Definition leb (x y : Q) : bool := Qle_bool x y.
Definition gtb (x y : Q) : bool := ltb y x.
Definition geb (x y : Q) : bool := leb y x.

(** [bool(x)] for a float. *)
Definition truthy (x : Q) : bool := negb (Qeq_bool x 0).

(** Rounding to the nearest integer, ties to the even one. *)
Definition round_half_even (x : Q) : Z :=
  let f := Qfloor x in
  match Qcompare (x - inject_Z f) (1 # 2) with
  | Lt => f
  | Gt => (f + 1)%Z
  | Eq => if Z.even f then f else (f + 1)%Z
  end.

(** [2 ** z] *)
Definition pow2 (z : Z) : Q :=
  if (0 <=? z)%Z then inject_Z (2 ^ z) else 1 # Z.to_pos (2 ^ (- z)).

(** [floor(log2(abs(x)))] for [x] other than zero. *)
Definition floor_log2 (x : Q) : Z :=
  let k := (Z.log2 (Z.abs (Qnum x)) - Z.log2 (Zpos (Qden x)))%Z in
  if Qle_bool (pow2 k) (Qabs x) then k else (k - 1)%Z.

(** The binary place of the last of the 53 bits of the binary64 numbers
    next to [x]: 52 places below its leading bit, and no lower than the
    last place of the subnormal numbers. *)
Definition last_place (x : Q) : Z := Z.max (floor_log2 x - 52) (- 1074).

(** [float("inf")]: the bound no binary64 number reaches. *)
Definition infinity : Q := inject_Z (2 ^ 1024).

(** [math.isfinite(x)] *)
Definition finite (x : Q) : bool := negb (Qle_bool infinity (Qabs x)).

(** The infinity of the sign of [x]. *)
Definition inf_of (x : Q) : Q := if Qle_bool 0 x then infinity else - infinity.

(** The number of 53 bits nearest to [x], ties to the even one,
    whatever its magnitude. *)
Definition nearest (x : Q) : Q :=
  inject_Z (round_half_even (x * pow2 (- last_place x))) * pow2 (last_place x).

(** The binary64 number nearest to [x], ties to the even one; an
    infinity when that number is out of range. *)
Definition rnd (x : Q) : Q :=
  let r := Qred (nearest x) in
  if finite r then r else inf_of x.

(** A binary64 number: finite, and its own rounding. *)
Definition is_float (x : Q) : Prop := finite x = true /\ rnd x == x.

(** [x - y]; with an infinite operand, the infinity of the sign of the
    exact difference. *)
Definition sub (x y : Q) : Q :=
  if finite x && finite y then rnd (x - y) else inf_of (x - y).

(** [x * y]; with an infinite factor, the infinity of the sign of the
    exact product. *)
Definition mul (x y : Q) : Q :=
  if finite x && finite y then rnd (x * y) else inf_of (x * y).

(** The value of [x / y] for [y] other than zero: an infinite [x] over a
    finite [y] is the infinity of the sign of the quotient, and a finite
    [x] over an infinite [y] is zero. *)
Definition quot (x y : Q) : Q :=
  if finite y then (if finite x then rnd (x / y) else inf_of (x / y)) else 0.

(** [x / y] *)
Definition div (x y : Q) : result Q :=
  if Qeq_bool y 0 then Raise ZeroDivisionError else Ok (quot x y).

(** [round(x, 2)]: the binary64 number nearest to the decimal of two
    places nearest to [x], ties to the even one; an infinity rounds to
    itself. *)
Definition round2 (x : Q) : Q :=
  if finite x then rnd (Qmake (round_half_even (x * 100)) 100) else x.

(** *** Strings *)

(** [needle in hay] *)
Fixpoint contains (needle hay : string) : bool :=
  if String.prefix needle hay then true
  else match hay with
       | EmptyString => false
       | String _ hay' => contains needle hay'
       end.

(** The characters [str.strip()] removes, among the ASCII ones. *)
Definition is_space (c : ascii) : bool :=
  let n := nat_of_ascii c in
  ((9 <=? n)%nat && (n <=? 13)%nat) || ((28 <=? n)%nat && (n <=? 32)%nat).

Fixpoint lstrip (s : string) : string :=
  match s with
  | EmptyString => EmptyString
  | String c s' => if is_space c then lstrip s' else s
  end.

Fixpoint rstrip (s : string) : string :=
  match s with
  | EmptyString => EmptyString
  | String c s' =>
      match rstrip s' with
      | EmptyString => if is_space c then EmptyString else String c EmptyString
      | r => String c r
      end
  end.

(** [s.strip()] *)
Definition strip (s : string) : string := rstrip (lstrip s).

Definition lower_char (c : ascii) : ascii :=
  let n := nat_of_ascii c in
  if ((65 <=? n)%nat && (n <=? 90)%nat)%bool then ascii_of_nat (n + 32) else c.

(** [s.lower()] *)
Fixpoint lower (s : string) : string :=
  match s with
  | EmptyString => EmptyString
  | String c s' => String (lower_char c) (lower s')
  end.

Fixpoint filter_chars (keep : ascii -> bool) (s : string) : string :=
  match s with
  | EmptyString => EmptyString
  | String c s' =>
      if keep c then String c (filter_chars keep s') else filter_chars keep s'
  end.

(** The characters of the text are ASCII. *)
Definition is_ascii_char (c : ascii) : bool := (nat_of_ascii c <? 128)%nat.

Fixpoint is_ascii (s : string) : bool :=
  match s with
  | EmptyString => true
  | String c s' => is_ascii_char c && is_ascii s'
  end.

(** [\d], among the ASCII characters. *)
Definition is_digit (c : ascii) : bool :=
  let n := nat_of_ascii c in ((48 <=? n)%nat && (n <=? 57)%nat)%bool.

Definition is_dot (c : ascii) : bool := Ascii.eqb c ".".

(** The value of a string of decimal digits, most significant first;
    [None] when a character is not a digit. *)
Fixpoint digits_value (acc : Z) (s : string) : option Z :=
  match s with
  | EmptyString => Some acc
  | String c s' =>
      if is_digit c
      then digits_value (10 * acc + Z.of_nat (nat_of_ascii c - 48))%Z s'
      else None
  end.

(** The part of [s] before its first dot and, when there is a dot, the
    part after it. *)
Fixpoint split_dot (s : string) : string * option string :=
  match s with
  | EmptyString => (EmptyString, None)
  | String c s' =>
      if is_dot c then (EmptyString, Some s')
      else let '(a, b) := split_dot s' in (String c a, b)
  end.

(** [float(s)] on the strings made of digits and dots: digits with at
    most one dot and at least one digit, read as the binary64 number
    nearest to the decimal; anything else is a [ValueError]. *)
Definition float (s : string) : result Q :=
  let '(ip, fo) := split_dot s in
  let fp := match fo with Some f => f | None => EmptyString end in
  match String.length (ip ++ fp) with
  | O => Raise ValueError
  | _ =>
      match digits_value 0 (ip ++ fp) with
      | Some n => Ok (rnd (Qmake n (Z.to_pos (10 ^ Z.of_nat (String.length fp)))))
      | None => Raise ValueError
      end
  end.

End Py.

Notation "x <- m ;; k" := (Py.bind m (fun x => k))
  (at level 100, m at next level, right associativity).

(** ** utils/common.py *)

Module Common.
Import Py.

(** A tracked product, as [fetch_products] builds it. *)
Record product : Type := {
  p_name : string;
  p_url : string;
  p_platform : string;
  p_threshold : Q
}.

(** A field of a [csv.DictReader] row: a string, or [None] for a column
    the line is too short to fill. *)
Inductive field : Type :=
| PyNone
| PyStr (s : string).

(** A row of the catalog, keyed by the column names of the header. *)
Abbreviation csv_row := (gmap string field).

(** The catalog file: [None] when [PRODUCTS_FILE] does not exist. *)
Definition catalog : Type := option (list csv_row).

(** [row.get(key, "")] *)
Definition get_or_empty (row : csv_row) (key : string) : field :=
  match row !! key with
  | Some v => v
  | None => PyStr ""
  end.

(** [row.get(key)] *)
Definition get (row : csv_row) (key : string) : field :=
  match row !! key with
  | Some v => v
  | None => PyNone
  end.

(** [row[key]] *)
Definition getitem (row : csv_row) (key : string) : result field :=
  match row !! key with
  | Some v => Ok v
  | None => Raise KeyError
  end.

(** [str(v)] *)
Definition str (v : field) : string :=
  match v with
  | PyNone => "None"
  | PyStr s => s
  end.

(** [bool(v)] *)
Definition field_truthy (v : field) : bool :=
  match v with
  | PyNone => false
  | PyStr EmptyString => false
  | PyStr _ => true
  end.

(** [v.strip()] and [v.lower()]: [None] has neither method. *)
Definition field_strip (v : field) : result string :=
  match v with
  | PyNone => Raise AttributeError
  | PyStr s => Ok (strip s)
  end.

Definition field_lower (v : field) : result string :=
  match v with
  | PyNone => Raise AttributeError
  | PyStr s => Ok (lower s)
  end.

(** [re.sub(r'[^\d.]', '', str(row.get("threshold", "")).strip())] *)
Definition threshold_clean (row : csv_row) : string :=
  filter_chars (fun c => is_digit c || is_dot c)
               (strip (str (get_or_empty row "threshold"))).

(** The body of the inner [try] for one row: [Ok None] is a [continue],
    [Ok (Some p)] the product appended to [products]. *)
Definition parse_row (row : csv_row) : result (option product) :=
  let cleaned := threshold_clean row in
  match cleaned with
  | EmptyString => Ok None
  | _ =>
      threshold <- float cleaned ;;
      if negb (field_truthy (get row "name")) || negb (field_truthy (get row "url"))
      then Ok None
      else
        name_v <- getitem row "name" ;;
        name <- field_strip name_v ;;
        url_v <- getitem row "url" ;;
        url <- field_strip url_v ;;
        platform_l <- field_lower (get_or_empty row "platform") ;;
        Ok (Some {| p_name := name; p_url := url;
                    p_platform := strip platform_l; p_threshold := threshold |})
  end.

(** [except (ValueError, KeyError)] *)
Definition row_errors (e : exn) : bool :=
  match e with
  | ValueError | KeyError => true
  | _ => false
  end.

(** The [for] loop over the rows, [products] being the list built so
    far. *)
Fixpoint read_rows (rows : list csv_row) (products : list product)
  : result (list product) :=
  match rows with
  | [] => Ok products
  | row :: rest =>
      r <- try_except (parse_row row) row_errors (fun _ => Ok None) ;;
      match r with
      | Some p => read_rows rest (products ++ [p])%list
      | None => read_rows rest products
      end
  end.

(** [open(PRODUCTS_FILE)] and [csv.DictReader(f)] *)
Definition open_catalog (file : catalog) : result (list csv_row) :=
  match file with
  | Some rows => Ok rows
  | None => Raise FileNotFoundError
  end.

Definition is_FileNotFoundError (e : exn) : bool :=
  match e with
  | FileNotFoundError => true
  | _ => false
  end.

Definition fetch_products (file : catalog) : result (list product) :=
  try_except
    (try_except
       (rows <- open_catalog file ;; read_rows rows [])
       is_FileNotFoundError (fun _ => Ok []))
    is_Exception (fun _ => Ok []).

(** The text of a cell is ASCII. *)
Definition ascii_field (v : field) : bool :=
  match v with
  | PyNone => true
  | PyStr s => is_ascii s
  end.

(** The cells of a row that [fetch_products] reads are ASCII. *)
Definition ascii_row (row : csv_row) : bool :=
  ascii_field (get row "threshold") && ascii_field (get row "name")
  && ascii_field (get row "url") && ascii_field (get row "platform").

(** The catalog is missing, or a file of ASCII text. *)
Definition ascii_catalog (file : catalog) : bool :=
  match file with
  | Some rows => forallb ascii_row rows
  | None => true
  end.

(** The test that skips a row: its threshold has no digit and no dot, or
    its name or its URL is missing or empty. *)
Definition is_skipped (row : csv_row) : Prop :=
  filter_chars (fun c => is_digit c || is_dot c)
               (str (get_or_empty row "threshold")) = ""
  \/ field_truthy (get row "name") = false
  \/ field_truthy (get row "url") = false.

(** One line of the table of [display_price_table]. *)
Record table_line : Type := {
  t_name : string;
  t_current : Q;
  t_desired : Q;
  t_discount : Q
}.

(** A row of a catalog with the four columns, for the examples. *)
Definition catalog_row (name url platform threshold : string) : csv_row :=
  <["name" := PyStr name]>
    (<["url" := PyStr url]>
       (<["platform" := PyStr platform]> (<["threshold" := PyStr threshold]> ∅))).

(** A catalog whose one row has a threshold with a currency and a
    thousands separator. *)
Definition example_row_catalog : catalog :=
  Some [catalog_row "Kettle" "https://www.amazon.in/kettle" "amazon" "Rs 1,299.50"].

Definition example_kettle : product :=
  {| p_name := "Kettle"; p_url := "https://www.amazon.in/kettle";
     p_platform := "amazon"; p_threshold := 2599 # 2 |}.

(** The cell of the platform is [None]: the column exists and the line
    is too short to fill it. *)
Definition platform_is_none (row : csv_row) : Prop := row !! "platform" = Some PyNone.

(** The products one row adds to the list: one, or none when the row is
    skipped. *)
Definition products_of_row (row : csv_row) : list product :=
  match parse_row row with
  | Ok (Some p) => [p]
  | _ => []
  end.

End Common.

(** ** utils/db.py *)

Module Db.
Import Py.

(** A row of [price_history]. [original_price] may be [NULL]: the column
    was added to older databases by [ALTER TABLE]. *)
Record row : Type := {
  id : nat;
  name : string;
  url : string;
  platform : string;
  price : Q;
  original_price : option Q;
  threshold : Q;
  date : Z
}.

(** The table, oldest insertion first. *)
Definition table : Type := list row.

(** [WHERE name = ?] *)
Definition with_name (n : string) (t : table) : list row :=
  List.filter (fun r => String.eqb (name r) n) t.

Definition Qmax (x y : Q) : Q := if Qle_bool x y then y else x.

(** The aggregate [MAX] over a column of rationals: [NULL] on no row. *)
Fixpoint max_of (l : list Q) : option Q :=
  match l with
  | [] => None
  | x :: l' =>
      match max_of l' with
      | None => Some x
      | Some m => Some (Qmax x m)
      end
  end.

(** [SELECT MAX(price) FROM price_history WHERE name = ?] *)
Definition select_max_price (n : string) (t : table) : option Q :=
  max_of (map price (with_name n t)).

(** [max_price if max_price and max_price > price else price] *)
Definition infer_original_price (max_price : option Q) (p : Q) : Q :=
  match max_price with
  | Some m => if truthy m && gtb m p then m else p
  | None => p
  end.

(** The largest [id] of the table, 0 for none: [AUTOINCREMENT] gives
    the next row the [id] after it. *)
Definition max_id (t : list row) : nat := fold_right Nat.max 0%nat (map id t).

(** [save_price(name, url, platform, price, threshold, original_price)],
    [now] being the value of [datetime.now()]. *)
Definition save_price (n u pf : string) (p th : Q) (original : option Q)
           (now : Z) (t : table) : table :=
  let original' :=
    match original with
    | None => infer_original_price (select_max_price n t) p
    | Some o => o
    end in
  (t ++ [{| id := S (max_id t); name := n; url := u; platform := pf;
            price := p; original_price := Some original'; threshold := th;
            date := now |}])%list.

(** Insertion of [x] in a list sorted by [le], before the first element
    it is [le] to. *)
Fixpoint insert_by {A : Type} (le : A -> A -> bool) (x : A) (l : list A) : list A :=
  match l with
  | [] => [x]
  | y :: l' => if le x y then x :: l else y :: insert_by le x l'
  end.

(** [ORDER BY]: a stable sort. *)
Definition order_by {A : Type} (le : A -> A -> bool) (l : list A) : list A :=
  fold_right (insert_by le) [] l.

(** [ORDER BY date DESC] *)
Definition date_desc (x y : row) : bool := (date y <=? date x)%Z.

(** The scalar subquery
    [SELECT price FROM price_history ph2 WHERE ph2.name = ph1.name
     ORDER BY date DESC LIMIT 1 OFFSET 1]. *)
Definition select_previous_price (n : string) (t : table) : option Q :=
  match order_by date_desc (with_name n t) with
  | _ :: r :: _ => Some (price r)
  | _ => None
  end.

(** [MAX(date)] of the group of [n] in
    [SELECT name, MAX(date) as max_date FROM price_history GROUP BY name]. *)
Fixpoint max_date_of (l : list Z) : option Z :=
  match l with
  | [] => None
  | x :: l' =>
      match max_date_of l' with
      | None => Some x
      | Some m => Some (Z.max x m)
      end
  end.

Definition max_date (n : string) (t : table) : option Z :=
  max_date_of (map date (with_name n t)).

(** A row of the result of the query of [get_product_summary]. *)
Record joined : Type := {
  j_name : string;
  j_url : string;
  j_platform : string;
  j_current_price : Q;
  j_original_price : option Q;
  j_threshold : Q;
  j_date : Z;
  j_previous_price : option Q
}.

Definition Qeqb_opt (a b : option Q) : bool :=
  match a, b with
  | Some x, Some y => Qeq_bool x y
  | None, None => true
  | _, _ => false
  end.

Definition joined_eqb (a b : joined) : bool :=
  String.eqb (j_name a) (j_name b) && String.eqb (j_url a) (j_url b)
  && String.eqb (j_platform a) (j_platform b)
  && Qeq_bool (j_current_price a) (j_current_price b)
  && Qeqb_opt (j_original_price a) (j_original_price b)
  && Qeq_bool (j_threshold a) (j_threshold b)
  && (j_date a =? j_date b)%Z
  && Qeqb_opt (j_previous_price a) (j_previous_price b).

(** [SELECT DISTINCT]: the first of equal rows is kept. *)
Fixpoint distinct (l : list joined) : list joined :=
  match l with
  | [] => []
  | x :: l' => x :: List.filter (fun y => negb (joined_eqb x y)) (distinct l')
  end.

(** The rows [ph1] that the join with [latest] keeps:
    [ph1.name = latest.name AND ph1.date = latest.max_date]. *)
Definition is_latest (t : table) (r : row) : bool :=
  match max_date (name r) t with
  | Some d => (date r =? d)%Z
  | None => false
  end.

Definition select_columns (t : table) (r : row) : joined :=
  {| j_name := name r; j_url := url r; j_platform := platform r;
     j_current_price := price r; j_original_price := original_price r;
     j_threshold := threshold r; j_date := date r;
     j_previous_price := select_previous_price (name r) t |}.

(** [ORDER BY ph1.name] *)
Definition by_name (x y : joined) : bool := String.leb (j_name x) (j_name y).

(** The query of [get_product_summary]. *)
Definition summary_query (t : table) : list joined :=
  order_by by_name (distinct (map (select_columns t) (List.filter (is_latest t) t))).

(** An entry of the list [get_product_summary] returns. *)
Record summary : Type := {
  s_name : string;
  s_url : string;
  s_platform : string;
  s_current_price : Q;
  s_original_price : Q;
  s_threshold : Q;
  s_previous_price : option Q;
  s_price_change : option Q;
  s_price_change_percent : option Q;
  s_last_updated : Z
}.

(** [data.get('original_price') or current_price] *)
Definition original_or_current (original : option Q) (current : Q) : Q :=
  match original with
  | Some o => if truthy o then o else current
  | None => current
  end.

(** [if previous_price:] *)
Definition previous_truthy (previous : option Q) : bool :=
  match previous with
  | Some p => truthy p
  | None => false
  end.

(** The body of the loop of [get_product_summary] up to the test on
    [products_dict]. *)
Definition summarize (data : joined) : result summary :=
  let current_price := j_current_price data in
  let previous_price := j_previous_price data in
  let original_price := original_or_current (j_original_price data) current_price in
  changes <-
    match previous_price with
    | Some previous =>
        if truthy previous then
          quotient <- div (sub current_price previous) previous ;;
          Ok (Some (sub current_price previous), Some (mul quotient 100))
        else Ok (None, None)
    | None => Ok (None, None)
    end ;;
  Ok {| s_name := j_name data; s_url := j_url data; s_platform := j_platform data;
        s_current_price := current_price; s_original_price := original_price;
        s_threshold := j_threshold data; s_previous_price := previous_price;
        s_price_change := fst changes; s_price_change_percent := snd changes;
        s_last_updated := j_date data |}.

(** [product_name in products_dict], the dictionary being the list of its
    items in insertion order. *)
Definition in_dict (n : string) (d : list (string * summary)) : bool :=
  existsb (fun kv => String.eqb (fst kv) n) d.

Fixpoint summary_loop (rows : list joined) (products_dict : list (string * summary))
  : result (list (string * summary)) :=
  match rows with
  | [] => Ok products_dict
  | data :: rest =>
      s <- summarize data ;;
      if in_dict (j_name data) products_dict
      then summary_loop rest products_dict
      else summary_loop rest (products_dict ++ [(j_name data, s)])%list
  end.

Definition get_product_summary (t : table) : result (list summary) :=
  d <- summary_loop (summary_query t) [] ;;
  Ok (map snd d).

(** The entry of a product in a summary. *)
Definition entry_of (n : string) (l : list summary) : option summary :=
  List.find (fun s => String.eqb (s_name s) n) l.

(** The entry [summarize] builds, as a value: its division is behind the
    test on [previous_price]. *)
Definition summary_of (data : joined) : summary :=
  let current_price := j_current_price data in
  let changes :=
    match j_previous_price data with
    | Some previous =>
        if truthy previous
        then (Some (sub current_price previous),
              Some (mul (quot (sub current_price previous) previous) 100))
        else (None, None)
    | None => (None, None)
    end in
  {| s_name := j_name data; s_url := j_url data; s_platform := j_platform data;
     s_current_price := current_price;
     s_original_price := original_or_current (j_original_price data) current_price;
     s_threshold := j_threshold data; s_previous_price := j_previous_price data;
     s_price_change := fst changes; s_price_change_percent := snd changes;
     s_last_updated := j_date data |}.

(** The item of a key in a dictionary kept as the list of its items. *)
Definition item_of (n : string) (d : list (string * summary))
  : option (string * summary) :=
  List.find (fun kv => String.eqb (fst kv) n) d.

(** The key of an item of [products_dict] is the name in its entry. *)
Definition key_is_name (kv : string * summary) : Prop := fst kv = s_name (snd kv).

(** A row of the product "Widget", for the examples. *)
Definition widget (i : nat) (p : Q) (d : Z) : row :=
  {| id := i; name := "Widget"; url := "https://www.amazon.in/widget";
     platform := "amazon"; price := p; original_price := Some 120;
     threshold := 100; date := d |}.

(** A row of the product "Gadget", for the examples. *)
Definition gadget (i : nat) (p : Q) (d : Z) : row :=
  {| id := i; name := "Gadget"; url := "https://www.flipkart.com/gadget";
     platform := "flipkart"; price := p; original_price := Some p;
     threshold := 500; date := d |}.

(** The row of the query of [get_product_summary] for a product, from
    the rows [obs] of that product alone: the first of its rows of the
    latest date, with the price of the second of its rows by date. *)
Definition latest_of_rows (obs : list row) : option joined :=
  option_map
    (fun r =>
       {| j_name := name r; j_url := url r; j_platform := platform r;
          j_current_price := price r; j_original_price := original_price r;
          j_threshold := threshold r; j_date := date r;
          j_previous_price :=
            match order_by date_desc obs with
            | _ :: r2 :: _ => Some (price r2)
            | _ => None
            end |})
    (List.find (fun r => match max_date_of (map date obs) with
                         | Some d => (date r =? d)%Z
                         | None => false
                         end) obs).

(** [x] is not older than [y]. *)
Definition not_older (x y : row) : Prop := (date y <= date x)%Z.

(** [get_latest_prices()]: the name, price, threshold and date of every
    row, [ORDER BY date DESC]. *)
Definition get_latest_prices (t : table) : list (string * Q * Q * Z) :=
  map (fun r => (name r, price r, threshold r, date r)) (order_by date_desc t).

(** A Python [int] bound to a parameter of a statement is a 64-bit
    INTEGER; a larger one is refused by [execute] with an
    [OverflowError]. *)
Definition fits_integer (z : Z) : bool :=
  ((- 2 ^ 63 <=? z) && (z <? 2 ^ 63))%Z.

(** [LIMIT ?]: a negative limit is no limit. *)
Definition limit_rows {A : Type} (limit : Z) (l : list A) : list A :=
  if (limit <? 0)%Z then l else firstn (Z.to_nat limit) l.

(** [if name:] for [name: str = None]. *)
Definition name_given (n : option string) : option string :=
  match n with
  | Some (String c n') => Some (String c n')
  | _ => None
  end.

(** [get_price_history(name, limit)]: the rows as dictionaries of all
    their columns; [None] stands for the [OverflowError] of a limit that
    does not fit. *)
Definition get_price_history (n : option string) (limit : Z) (t : table)
  : option (list row) :=
  if fits_integer limit then
    match name_given n with
    | Some n' => Some (limit_rows limit (order_by date_desc (with_name n' t)))
    | None => Some (limit_rows limit (order_by date_desc t))
    end
  else None.

End Db.

(** ** utils/playwright_price_scraper.py *)

Module Scraper.
Import Py Common.

(** The status line of a scraped product:
    ["[OK] Threshold & Discount Met"], ["[X] Above threshold by Rs <diff>"]
    and ["[X] No Email (no discount)"]. *)
Inductive status : Type :=
| ThresholdAndDiscountMet
| AboveThresholdBy (diff : Q)
| NoEmailNoDiscount.

(** The dictionary [scrape_product] returns. *)
Record info : Type := {
  i_name : string;
  i_url : string;
  i_current_price : Q;
  i_original_price : Q;
  i_discount : Q;
  i_threshold : Q;
  i_status : status;
  i_send_email : bool
}.

(** What is printed on the console. *)
Inductive message : Type :=
| NoProductsToTrack
| FlipkartScrapedPrices (prices : option (Q * Q))
| PriceLine (name : string) (current_price threshold : Q)
| FailedToFetch (name : string)
| PriceTable (lines : list table_line)
| SkippingEmail.

(** The state a tracking run acts on: the [price_history] table, the
    clock behind [datetime.now()], the list objects of the run, the
    console and the batches handed to [send_report]. *)
Record world : Type := {
  db : Db.table;
  clock : Z;
  lists : gmap nat (list info);
  console : list message;
  emails : list (list info)
}.

(** A step either returns or raises, in a new state. *)
Inductive outcome (A : Type) : Type :=
| Done (a : A) (w : world)
| Threw (e : exn) (w : world).
Arguments Done {A} a w.
Arguments Threw {A} e w.

Definition M (A : Type) : Type := world -> outcome A.

Definition ret {A : Type} (a : A) : M A := fun w => Done a w.

Definition mbind {A B : Type} (m : M A) (k : A -> M B) : M B :=
  fun w =>
    match m w with
    | Done a w' => k a w'
    | Threw e w' => Threw e w'
    end.

Notation "x <<- m ;; k" := (mbind m (fun x => k))
  (at level 100, m at next level, right associativity).

Definition lift {A : Type} (r : result A) : M A :=
  fun w =>
    match r with
    | Ok a => Done a w
    | Raise e => Threw e w
    end.

(** [console.print(...)] *)
Definition print (m : message) : M unit :=
  fun w => Done tt {| db := db w; clock := clock w; lists := lists w;
                      console := (console w ++ [m])%list; emails := emails w |}.

(** [[]]: a new list object; its reference is returned. *)
Definition new_list : M nat :=
  fun w =>
    let l := fresh (dom (lists w)) in
    Done l {| db := db w; clock := clock w; lists := <[l := []]> (lists w);
              console := console w; emails := emails w |}.

(** The contents of the list object at [l]. *)
Definition read_list (l : nat) : M (list info) :=
  fun w => Done (default [] (lists w !! l)) w.

(** [l.append(x)] *)
Definition list_append (l : nat) (x : info) : M unit :=
  fun w =>
    Done tt {| db := db w; clock := clock w;
               lists := <[l := (default [] (lists w !! l) ++ [x])%list]> (lists w);
               console := console w; emails := emails w |}.

(** [datetime.now()]: the clock is read and moves on. *)
Definition now : M Z :=
  fun w => Done (clock w) {| db := db w; clock := (clock w + 1)%Z; lists := lists w;
                             console := console w; emails := emails w |}.

(** [save_price(...)] on the table of the world. *)
Definition save_price (n u pf : string) (p th : Q) (original : option Q) : M unit :=
  t <<- now ;;
  fun w => Done tt {| db := Db.save_price n u pf p th original t (db w);
                      clock := clock w; lists := lists w;
                      console := console w; emails := emails w |}.

(** [send_report(reports)] *)
Definition send_report (reports : list info) : M unit :=
  fun w => Done tt {| db := db w; clock := clock w; lists := lists w;
                      console := console w; emails := (emails w ++ [reports])%list |}.

(** *** Evaluation rules of [scrape_product] *)

(** [round(((original_price - current_price) / original_price) * 100, 2)
     if original_price > current_price else 0] *)
Definition discount_of (original_price current_price : Q) : result Q :=
  if gtb original_price current_price
  then quotient <- div (sub original_price current_price) original_price ;;
       Ok (round2 (mul quotient 100))
  else Ok 0.

(** [(current_price < original_price) and (current_price <= threshold)] *)
Definition send_email_of (current_price original_price threshold : Q) : bool :=
  ltb current_price original_price && leb current_price threshold.

Definition status_of (send_email : bool) (current_price threshold : Q) : status :=
  if send_email then ThresholdAndDiscountMet
  else if gtb current_price threshold
       then AboveThresholdBy (sub current_price threshold)
       else NoEmailNoDiscount.

(** [10e9] *)
Definition ten_e9 : Q := 10000000000.

Section Run.

(** The page of the browser, and the two scrapers of [scrape_amazon.py]
    and [scrape_flipkart.py]: the current and the original price, or
    [None]. *)
Variable Page : Type.
Variable scrape_amazon : string -> Page -> option (Q * Q).
Variable scrape_flipkart : string -> Page -> option (Q * Q).

(** The part of [scrape_product] after the prices are known. *)
Definition evaluate (product : product) (current_price original_price : Q)
  : result info :=
  discount <- discount_of original_price current_price ;;
  let send_email := send_email_of current_price original_price (p_threshold product) in
  Ok {| i_name := p_name product; i_url := p_url product;
        i_current_price := current_price; i_original_price := original_price;
        i_discount := discount; i_threshold := p_threshold product;
        i_status := status_of send_email current_price (p_threshold product);
        i_send_email := send_email |}.

Definition scrape_product (page : Page) (product : product) : M (option info) :=
  let url := p_url product in
  if contains "amazon" url then
    match scrape_amazon url page with
    | None => ret None
    | Some (current_price, original_price) =>
        i <<- lift (evaluate product current_price original_price) ;; ret (Some i)
    end
  else if contains "flipkart" url then
    let flipkart_scraped_prices := scrape_flipkart url page in
    _ <<- print (FlipkartScrapedPrices flipkart_scraped_prices) ;;
    match flipkart_scraped_prices with
    | None => ret None
    | Some (current_price, original_price) =>
        i <<- lift (evaluate product current_price original_price) ;; ret (Some i)
    end
  else
    i <<- lift (evaluate product ten_e9 ten_e9) ;; ret (Some i).

(** *** [display_price_table] of utils/common.py *)

(** The loop that keeps the first result of each product name, [seen]
    being [seen_products]. *)
Fixpoint unique_results (seen : gset string) (results : list info) : list info :=
  match results with
  | [] => []
  | item :: rest =>
      if decide (i_name item ∈ seen) then unique_results seen rest
      else item :: unique_results ({[i_name item]} ∪ seen) rest
  end.

Definition table_line_of (item : info) : result table_line :=
  let current := i_current_price item in
  let original := i_original_price item in
  discount <-
    (if gtb original 0
     then quotient <- div (sub original current) original ;;
          Ok (round2 (mul quotient 100))
     else Ok 0) ;;
  Ok {| t_name := i_name item; t_current := current;
        t_desired := i_threshold item; t_discount := discount |}.

Fixpoint table_lines (items : list info) : result (list table_line) :=
  match items with
  | [] => Ok []
  | item :: rest =>
      line <- table_line_of item ;;
      lines <- table_lines rest ;;
      Ok (line :: lines)
  end.

Definition display_price_table (results : list info) : M unit :=
  lines <<- lift (table_lines (unique_results ∅ results)) ;;
  print (PriceTable lines).

(** *** [track_prices] *)

(** The body of [for product in products], [results] and
    [report_details] being references to list objects. *)
Definition track_product (page : Page) (results report_details : nat)
           (product : product) : M unit :=
  info <<- scrape_product page product ;;
  match info with
  | Some info =>
      _ <<- list_append results info ;;
      let current_price := i_current_price info in
      _ <<- print (PriceLine (p_name product) current_price (p_threshold product)) ;;
      _ <<- save_price (p_name product) (p_url product) (p_platform product)
                       current_price (p_threshold product)
                       (Some (i_original_price info)) ;;
      if ltb current_price (i_original_price info)
         && leb current_price (p_threshold product)
      then list_append report_details info
      else ret tt
  | None => print (FailedToFetch (p_name product))
  end.

Fixpoint track_loop (page : Page) (results report_details : nat)
         (products : list product) : M unit :=
  match products with
  | [] => ret tt
  | product :: rest =>
      _ <<- track_product page results report_details product ;;
      track_loop page results report_details rest
  end.

(** The test of the comprehension that builds [eligible_reports]. *)
Definition still_eligible (item : info) : bool :=
  ltb (i_current_price item) (i_original_price item)
  && leb (i_current_price item) (i_threshold item).

(** [track_prices()], on the catalog file and the page of the browser.
    [results = report_details = []] binds both names to one list. *)
Definition track_prices (file : catalog) (page : Page) : M unit :=
  products <<- lift (fetch_products file) ;;
  match products with
  | [] => print NoProductsToTrack
  | _ :: _ =>
      l <<- new_list ;;
      let results := l in
      let report_details := l in
      _ <<- track_loop page results report_details products ;;
      shown <<- read_list results ;;
      _ <<- match shown with
            | [] => ret tt
            | _ :: _ => display_price_table shown
            end ;;
      details <<- read_list report_details ;;
      let eligible_reports := List.filter still_eligible details in
      match eligible_reports with
      | [] => print SkippingEmail
      | _ :: _ => send_report eligible_reports
      end
  end.

(** *** The scrapes of a run, as values *)

(** The prices [scrape_product] evaluates: those of the scraper its URL
    selects, [None] when that scraper finds none, and the initial [10e9]
    when the URL selects no scraper. *)
Definition fetched_prices (page : Page) (product : product) : option (Q * Q) :=
  let url := p_url product in
  if contains "amazon" url then scrape_amazon url page
  else if contains "flipkart" url then scrape_flipkart url page
  else Some (ten_e9, ten_e9).

(** What [scrape_product] prints. *)
Definition scrape_messages (page : Page) (product : product) : list message :=
  let url := p_url product in
  if contains "amazon" url then []
  else if contains "flipkart" url
       then [FlipkartScrapedPrices (scrape_flipkart url page)]
       else [].

(** The dictionary [scrape_product] returns for a product, with the
    product, if it returns one. *)
Definition scrape_of (page : Page) (p : product) : list (product * info) :=
  match fetched_prices page p with
  | Some (current_price, original_price) =>
      match evaluate p current_price original_price with
      | Ok i => [(p, i)]
      | Raise _ => []
      end
  | None => []
  end.

(** The products of a list whose scrape returns a dictionary, with it,
    in the order of the list. *)
Definition scrapes (page : Page) (products : list product) : list (product * info) :=
  flat_map (scrape_of page) products.

(** What the loop prints for a product. *)
Definition product_messages (page : Page) (p : product) : list message :=
  (scrape_messages page p
   ++ match fetched_prices page p with
      | Some (current_price, _) => [PriceLine (p_name p) current_price (p_threshold p)]
      | None => [FailedToFetch (p_name p)]
      end)%list.

(** The prices fetched for a product, if any, have a current price that
    is not negative. *)
Definition prices_ok (page : Page) (product : product) : Prop :=
  forall current_price original_price,
    fetched_prices page product = Some (current_price, original_price) ->
    0 <= current_price.

(** What the loop appends to the one list that [results] and
    [report_details] name, for one scraped product. *)
Definition appended (i : info) : list info :=
  if still_eligible i then [i; i] else [i].

(** The eligible dictionaries of a run, each of them twice. *)
Definition twice_eligible (scraped : list (product * info)) : list info :=
  flat_map (fun pi => if still_eligible (snd pi) then [snd pi; snd pi] else [])
           scraped.

(** The calls of [send_report] of a run: one, when some dictionary is
    eligible. *)
Definition batches (scraped : list (product * info)) : list (list info) :=
  match twice_eligible scraped with
  | [] => []
  | batch => [batch]
  end.

(** What a run may add to the table for a product of the catalog: a row
    of that product with the fetched prices. *)
Definition written_for (page : Page) (products : list product) (r : Db.row) : Prop :=
  exists q o,
    In q products
    /\ Db.name r = p_name q /\ Db.url r = p_url q /\ Db.platform r = p_platform q
    /\ Db.threshold r = p_threshold q
    /\ fetched_prices page q = Some (Db.price r, o)
    /\ Db.original_price r = Some o.

End Run.

(** The world after [msgs] are printed. *)
Definition printed (msgs : list message) (w : world) : world :=
  {| db := db w; clock := clock w; lists := lists w;
     console := (console w ++ msgs)%list; emails := emails w |}.

(** The columns of a row that a run decides: all but [id] and [date]. *)
Definition observation (r : Db.row) : string * string * string * Q * option Q * Q :=
  (Db.name r, Db.url r, Db.platform r, Db.price r, Db.original_price r,
   Db.threshold r).

(** The observation a run writes for a scraped product. *)
Definition observation_of (pi : product * info)
  : string * string * string * Q * option Q * Q :=
  (p_name (fst pi), p_url (fst pi), p_platform (fst pi),
   i_current_price (snd pi), Some (i_original_price (snd pi)),
   p_threshold (fst pi)).

(** The state before a first run. *)
Definition initial_world : world :=
  {| db := []; clock := 0; lists := ∅; console := []; emails := [] |}.

(** Scrapers for the examples: Amazon has the widget at 90, down from
    120, and the lamp at 700; Flipkart finds nothing. *)
Definition example_amazon (url : string) (_ : unit) : option (Q * Q) :=
  if String.eqb url "https://www.amazon.in/widget" then Some (90, 120)
  else if String.eqb url "https://www.amazon.in/lamp" then Some (700, 700)
       else None.

Definition example_flipkart (url : string) (_ : unit) : option (Q * Q) := None.

(** A catalog of three products, and the products read from it. *)
Definition example_catalog : catalog :=
  Some [catalog_row "Widget" "https://www.amazon.in/widget" "amazon" "100";
        catalog_row "Gadget" "https://www.flipkart.com/gadget" "flipkart" "500";
        catalog_row "Lamp" "https://www.amazon.in/lamp" "Amazon" "Rs 600"].

Definition example_widget : product :=
  {| p_name := "Widget"; p_url := "https://www.amazon.in/widget";
     p_platform := "amazon"; p_threshold := 100 |}.

Definition example_gadget : product :=
  {| p_name := "Gadget"; p_url := "https://www.flipkart.com/gadget";
     p_platform := "flipkart"; p_threshold := 500 |}.

Definition example_lamp : product :=
  {| p_name := "Lamp"; p_url := "https://www.amazon.in/lamp";
     p_platform := "amazon"; p_threshold := 600 |}.

(** A catalog with, between two products, a row without a threshold, a
    row without a name and a row whose threshold has two dots. *)
Definition skipping_catalog : catalog :=
  Some [catalog_row "Widget" "https://www.amazon.in/widget" "amazon" "100";
        catalog_row "Gadget" "https://www.flipkart.com/gadget" "flipkart" "n/a";
        catalog_row "" "https://www.amazon.in/mug" "amazon" "250";
        catalog_row "Kettle" "https://www.amazon.in/kettle" "amazon" "1.299.50";
        catalog_row "Lamp" "https://www.amazon.in/lamp" "Amazon" "Rs 600"].

(** A catalog whose one product is of a site without a scraper. *)
Definition mug_catalog : catalog :=
  Some [catalog_row "Mug" "https://www.example.com/mug" "example" "100"].

Definition example_mug : product :=
  {| p_name := "Mug"; p_url := "https://www.example.com/mug";
     p_platform := "example"; p_threshold := 100 |}.

(** The dictionary of the widget scraped at 90, down from 120. *)
Definition widget_info : info :=
  {| i_name := "Widget"; i_url := "https://www.amazon.in/widget";
     i_current_price := 90; i_original_price := 120; i_discount := 25;
     i_threshold := 100; i_status := ThresholdAndDiscountMet;
     i_send_email := true |}.

(** What a stretch of the loop does to the world, [results] and
    [report_details] being the same list [l]: no report is sent, the
    list grows by what each scraped product adds, the table by one
    observation per scraped product, and the console by [msgs]. *)
Definition loop_effect (l : nat) (scraped : list (product * info))
           (msgs : list message) (w w' : world) : Prop :=
  emails w' = emails w
  /\ default [] (lists w' !! l)
     = (default [] (lists w !! l)
        ++ flat_map (fun pi => appended (snd pi)) scraped)%list
  /\ map observation (db w')
     = (map observation (db w) ++ map observation_of scraped)%list
  /\ console w' = (console w ++ msgs)%list.

(** A scraper that returns the original price 0 and a negative price
    for one page. *)
Definition broken_amazon (url : string) (_ : unit) : option (Q * Q) :=
  if String.eqb url "https://www.amazon.in/widget" then Some (90, 120)
  else if String.eqb url "https://www.amazon.in/broken" then Some (-5, 0)
       else None.

Definition example_broken : product :=
  {| p_name := "Broken"; p_url := "https://www.amazon.in/broken";
     p_platform := "amazon"; p_threshold := 50 |}.

(** A catalog with that page between two others. *)
Definition broken_catalog : catalog :=
  Some [catalog_row "Widget" "https://www.amazon.in/widget" "amazon" "100";
        catalog_row "Broken" "https://www.amazon.in/broken" "amazon" "50";
        catalog_row "Lamp" "https://www.amazon.in/lamp" "amazon" "600"].

(** A catalog with a product Flipkart does not find before that page. *)
Definition failing_catalog : catalog :=
  Some [catalog_row "Gadget" "https://www.flipkart.com/gadget" "flipkart" "500";
        catalog_row "Broken" "https://www.amazon.in/broken" "amazon" "50"].

(** The world a step ends in, whether it returns or raises. *)
Definition final_world {A : Type} (o : outcome A) : world :=
  match o with
  | Done _ w => w
  | Threw _ w => w
  end.

End Scraper.

(** ** app.py *)

Module App.
Import Py Common Db.

(** An item of the list [get_products_summary] sends: the product of the
    catalog with the price fields of the ledger, or with [None]. *)
Record merged : Type := {
  m_name : string;
  m_url : string;
  m_platform : string;
  m_threshold : Q;
  m_current_price : option Q;
  m_original_price : option Q;
  m_previous_price : option Q;
  m_price_change : option Q;
  m_price_change_percent : option Q;
  m_last_updated : option Z
}.

(** [{item['name']: item for item in db_summary}] *)
Definition db_dict_of (db_summary : list summary) : gmap string summary :=
  foldl (fun d item => <[s_name item := item]> d) ∅ db_summary.

(** The body of the loop over [csv_products]. *)
Definition merge_product (db_dict : gmap string summary) (csv_product : product)
  : merged :=
  match db_dict !! p_name csv_product with
  | Some db_product =>
      {| m_name := p_name csv_product; m_url := p_url csv_product;
         m_platform := p_platform csv_product;
         m_threshold := p_threshold csv_product;
         m_current_price := Some (s_current_price db_product);
         m_original_price := Some (s_original_price db_product);
         m_previous_price := s_previous_price db_product;
         m_price_change := s_price_change db_product;
         m_price_change_percent := s_price_change_percent db_product;
         m_last_updated := Some (s_last_updated db_product) |}
  | None =>
      {| m_name := p_name csv_product; m_url := p_url csv_product;
         m_platform := p_platform csv_product;
         m_threshold := p_threshold csv_product;
         m_current_price := None; m_original_price := None;
         m_previous_price := None; m_price_change := None;
         m_price_change_percent := None; m_last_updated := None |}
  end.

(** What a route returns: [{"success": True, "data": ...}], or
    [{"success": False, "error": ...}] with status 500. *)
Inductive response (A : Type) : Type :=
| Success (data : A)
| ServerError (e : exn).
Arguments Success {A} data.
Arguments ServerError {A} e.

(** [GET /api/products/summary], on the catalog file and the table. *)
Definition get_products_summary (file : catalog) (t : table)
  : response (list merged) :=
  match
    (csv_products <- fetch_products file ;;
     db_summary <- get_product_summary t ;;
     Ok (map (merge_product (db_dict_of db_summary)) csv_products))
  with
  | Ok merged_products => Success merged_products
  | Raise e => ServerError e
  end.

(** What the route shows for a product of the catalog, given the entry
    of its name in the summary of the ledger, if there is one. *)
Definition shown_for (q : product) (entry : option summary) (item : merged) : Prop :=
  m_name item = p_name q /\ m_url item = p_url q
  /\ m_platform item = p_platform q /\ m_threshold item = p_threshold q
  /\ match entry with
     | Some e =>
         m_current_price item = Some (s_current_price e)
         /\ m_original_price item = Some (s_original_price e)
         /\ m_previous_price item = s_previous_price e
         /\ m_price_change item = s_price_change e
         /\ m_price_change_percent item = s_price_change_percent e
         /\ m_last_updated item = Some (s_last_updated e)
     | None =>
         m_current_price item = None /\ m_original_price item = None
         /\ m_previous_price item = None /\ m_price_change item = None
         /\ m_price_change_percent item = None /\ m_last_updated item = None
     end.

End App.

(** * Properties *)

(** ** Floats *)

Section FloatFacts.
Import Py.

Lemma ltb_lt (x y : Q) : ltb x y = true <-> x < y.
Proof.
  unfold ltb. rewrite negb_true_iff, <- not_true_iff_false, Qle_bool_iff.
  split; [apply Qnot_le_lt | apply Qlt_not_le].
Qed.

Lemma ltb_ge (x y : Q) : ltb x y = false <-> y <= x.
Proof.
  unfold ltb. rewrite negb_false_iff. apply Qle_bool_iff.
Qed.

Lemma leb_le (x y : Q) : leb x y = true <-> x <= y.
Proof. apply Qle_bool_iff. Qed.

Lemma gtb_gt (x y : Q) : gtb x y = true <-> y < x.
Proof. apply ltb_lt. Qed.

Lemma gtb_le (x y : Q) : gtb x y = false <-> x <= y.
Proof. apply ltb_ge. Qed.

Lemma truthy_true (x : Q) : truthy x = true <-> ~ x == 0.
Proof.
  unfold truthy. rewrite negb_true_iff, <- not_true_iff_false, Qeq_bool_iff.
  tauto.
Qed.

Lemma truthy_false (x : Q) : truthy x = false <-> x == 0.
Proof.
  unfold truthy. rewrite negb_false_iff. apply Qeq_bool_iff.
Qed.

Lemma pow2_pos (z : Z) : 0 < pow2 z.
Proof.
  unfold pow2. destruct (0 <=? z)%Z eqn:E.
  - apply Z.leb_le in E.
    assert (H : (0 < 2 ^ z)%Z) by now apply Z.pow_pos_nonneg.
    unfold Qlt. simpl. lia.
  - reflexivity.
Qed.

Lemma infinity_pos : 0 < infinity.
Proof.
  assert (H : (0 < 2 ^ 1024)%Z) by now apply Z.pow_pos_nonneg.
  unfold infinity, Qlt, inject_Z, Qnum, Qden. lia.
Qed.

Lemma inf_of_nonneg (x : Q) : 0 <= x -> inf_of x = infinity.
Proof. intros H. unfold inf_of. apply Qle_bool_iff in H. now rewrite H. Qed.

Lemma inf_of_neg (x : Q) : x < 0 -> inf_of x = - infinity.
Proof.
  intros H. unfold inf_of. destruct (Qle_bool 0 x) eqn:E; [|reflexivity].
  apply Qle_bool_iff in E. lra.
Qed.

Lemma round_half_even_nonneg (x : Q) : 0 <= x -> (0 <= round_half_even x)%Z.
Proof.
  intros Hx. unfold round_half_even.
  assert (Hf : (0 <= Qfloor x)%Z).
  { change 0%Z with (Qfloor 0). now apply Qfloor_resp_le. }
  destruct (Qcompare _ _); [destruct (Z.even _)| |]; lia.
Qed.

(** [round_half_even x] is within a half of [x]. *)
Lemma round_half_even_near (x : Q) :
  inject_Z (round_half_even x) - (1 # 2) <= x <= inject_Z (round_half_even x) + (1 # 2).
Proof.
  unfold round_half_even.
  pose proof (Qfloor_le x) as Hl. pose proof (Qlt_floor x) as Hu.
  rewrite inject_Z_plus in Hu. change (inject_Z 1) with 1 in Hu.
  destruct (Qcompare (x - inject_Z (Qfloor x)) (1 # 2)) eqn:E.
  - apply Qeq_alt in E.
    destruct (Z.even _);
      [|rewrite inject_Z_plus; change (inject_Z 1) with 1]; lra.
  - apply Qlt_alt in E. lra.
  - apply Qgt_alt in E. rewrite inject_Z_plus. change (inject_Z 1) with 1. lra.
Qed.

Lemma round_half_even_nonpos (x : Q) : x <= 0 -> (round_half_even x <= 0)%Z.
Proof.
  intros Hx. pose proof (round_half_even_near x) as [H _].
  destruct (Z_le_gt_dec (round_half_even x) 0) as [|G]; [assumption|].
  assert (G' : (1 <= round_half_even x)%Z) by lia.
  rewrite Zle_Qle in G'. change (inject_Z 1) with 1 in G'. lra.
Qed.

Lemma rnd_nonneg (x : Q) : 0 <= x -> 0 <= rnd x.
Proof.
  intros Hx. unfold rnd.
  destruct (finite _).
  - rewrite Qred_correct.
    apply Qmult_le_0_compat.
    + change 0 with (inject_Z 0). rewrite <- Zle_Qle.
      apply round_half_even_nonneg.
      apply Qmult_le_0_compat; [assumption|]. apply Qlt_le_weak, pow2_pos.
    + apply Qlt_le_weak, pow2_pos.
  - rewrite inf_of_nonneg by assumption. apply Qlt_le_weak, infinity_pos.
Qed.


Lemma sub_nonneg (x y : Q) : y <= x -> 0 <= sub x y.
Proof.
  intros H. unfold sub. destruct (_ && _).
  - apply rnd_nonneg. lra.
  - rewrite inf_of_nonneg by lra. apply Qlt_le_weak, infinity_pos.
Qed.

Lemma Qdiv_nonneg (x y : Q) : 0 <= x -> 0 <= y -> 0 <= x / y.
Proof.
  intros Hx Hy. unfold Qdiv. apply Qmult_le_0_compat; [assumption|].
  now apply Qinv_le_0_compat.
Qed.

Lemma quot_nonneg (x y : Q) : 0 <= x -> 0 <= y -> 0 <= quot x y.
Proof.
  intros Hx Hy. unfold quot.
  pose proof (Qdiv_nonneg x y Hx Hy).
  destruct (finite y); [|apply Qle_refl].
  destruct (finite x).
  - now apply rnd_nonneg.
  - rewrite inf_of_nonneg by assumption. apply Qlt_le_weak, infinity_pos.
Qed.

Lemma mul_nonneg (x y : Q) : 0 <= x -> 0 <= y -> 0 <= mul x y.
Proof.
  intros Hx Hy. unfold mul.
  pose proof (Qmult_le_0_compat x y Hx Hy).
  destruct (_ && _).
  - now apply rnd_nonneg.
  - rewrite inf_of_nonneg by assumption. apply Qlt_le_weak, infinity_pos.
Qed.

Lemma round2_nonneg (x : Q) : 0 <= x -> 0 <= round2 x.
Proof.
  intros Hx. unfold round2. destruct (finite x); [|assumption].
  apply rnd_nonneg.
  assert (H : (0 <= round_half_even (x * 100))%Z).
  { apply round_half_even_nonneg.
    apply Qmult_le_0_compat; [assumption | discriminate]. }
  unfold Qle. simpl. lia.
Qed.

(** [round(x, 2)] of a finite [x] is the binary64 number written as a
    decimal of two places that is within a half of a hundredth of [x]. *)
Lemma round2_near (x : Q) :
  finite x = true ->
  exists k : Z,
    round2 x = rnd (k # 100)
    /\ (k # 100) - (1 # 200) <= x <= (k # 100) + (1 # 200).
Proof.
  intros Hf. unfold round2. rewrite Hf.
  exists (round_half_even (x * 100)). split; [reflexivity|].
  pose proof (round_half_even_near (x * 100)) as [H1 H2].
  assert (E : round_half_even (x * 100) # 100
              == inject_Z (round_half_even (x * 100)) / 100).
  { unfold Qeq, Qdiv, Qmult, Qinv, inject_Z. simpl. lia. }
  rewrite E. unfold Qdiv. change (/ 100) with (1 # 100). split; lra.
Qed.

Lemma div_nonzero (x y : Q) : ~ y == 0 -> div x y = Ok (quot x y).
Proof.
  intros Hy. unfold div.
  destruct (Qeq_bool y 0) eqn:E; [|reflexivity].
  apply Qeq_bool_iff in E. contradiction.
Qed.

Lemma div_zero (x y : Q) : y == 0 -> div x y = Raise ZeroDivisionError.
Proof.
  intros Hy. unfold div. apply Qeq_bool_iff in Hy. now rewrite Hy.
Qed.

Lemma pow2_Qpower (z : Z) : pow2 z == Qpower 2 z.
Proof.
  unfold pow2. destruct (0 <=? z)%Z eqn:E.
  - apply Z.leb_le in E. now rewrite Zpower_Qpower.
  - apply Z.leb_gt in E. destruct z as [|p|p]; try lia.
    change (- Z.neg p)%Z with (Z.pos p).
    change (Qpower 2 (Z.neg p)) with (/ Qpower 2 (Z.pos p)).
    rewrite <- (Zpower_Qpower 2 (Z.pos p)) by lia.
    assert (H : (0 < 2 ^ Z.pos p)%Z) by (apply Z.pow_pos_nonneg; lia).
    destruct (2 ^ Z.pos p)%Z as [|n|n] eqn:En; try lia.
    reflexivity.
Qed.

Lemma pow2_add (a b : Z) : pow2 (a + b) == pow2 a * pow2 b.
Proof.
  rewrite !pow2_Qpower. apply Qpower_plus. discriminate.
Qed.

Lemma pow2_0 : pow2 0 == 1.
Proof. reflexivity. Qed.

Lemma pow2_ge_1 (z : Z) : (0 <= z)%Z -> 1 <= pow2 z.
Proof.
  intros H. unfold pow2. apply Z.leb_le in H as E. rewrite E.
  assert (G : (1 <= 2 ^ z)%Z).
  { change 1%Z with (2 ^ 0)%Z. apply Z.pow_le_mono_r; lia. }
  rewrite Zle_Qle in G. exact G.
Qed.

Lemma pow2_le (a b : Z) : (a <= b)%Z -> pow2 a <= pow2 b.
Proof.
  intros H. replace b with (a + (b - a))%Z by lia. rewrite pow2_add.
  pose proof (pow2_pos a). pose proof (pow2_ge_1 (b - a) ltac:(lia)). nra.
Qed.

Lemma pow2_inv (a : Z) : pow2 a * pow2 (- a) == 1.
Proof. rewrite <- pow2_add. now replace (a + - a)%Z with 0%Z by lia. Qed.

Lemma pow2_inject (z : Z) : (0 <= z)%Z -> pow2 z = inject_Z (2 ^ z).
Proof. intros H. unfold pow2. apply Z.leb_le in H. now rewrite H. Qed.

Lemma Qabs_num_den (x : Q) :
  Qabs x * inject_Z (Zpos (Qden x)) == inject_Z (Z.abs (Qnum x)).
Proof.
  destruct x as [n d]. unfold Qabs, Qeq, Qmult, inject_Z. simpl. lia.
Qed.

(** [floor_log2 x] is the exponent of the power of two at or next below
    [abs(x)]. *)
Lemma floor_log2_spec (x : Q) :
  ~ x == 0 ->
  pow2 (floor_log2 x) <= Qabs x < pow2 (floor_log2 x + 1).
Proof.
  intros Hx. unfold floor_log2.
  set (n := Z.abs (Qnum x)). set (d := Zpos (Qden x)).
  set (a := Z.log2 n). set (b := Z.log2 d).
  assert (Hn : (0 < n)%Z).
  { subst n. destruct x as [[|p|p] q]; simpl; try lia.
    exfalso. apply Hx. reflexivity. }
  assert (Hd : (0 < d)%Z) by (subst d; lia).
  destruct (Z.log2_spec n Hn) as [Hn1 Hn2]. fold a in Hn1, Hn2.
  destruct (Z.log2_spec d Hd) as [Hd1 Hd2]. fold b in Hd1, Hd2.
  assert (Ha : (0 <= a)%Z) by apply Z.log2_nonneg.
  assert (Hb : (0 <= b)%Z) by apply Z.log2_nonneg.
  rewrite Zle_Qle, <- pow2_inject in Hn1 by assumption.
  rewrite Zlt_Qlt, <- pow2_inject in Hn2 by lia.
  rewrite Zle_Qle, <- pow2_inject in Hd1 by assumption.
  rewrite Zlt_Qlt, <- pow2_inject in Hd2 by lia.
  pose proof (Qabs_num_den x) as Hq. fold n d in Hq.
  pose proof (Qabs_nonneg x) as Hpos.
  assert (E1 : pow2 (Z.succ a) == pow2 (a - b + 1) * pow2 b).
  { rewrite <- pow2_add. now replace (a - b + 1 + b)%Z with (Z.succ a) by lia. }
  assert (E2 : pow2 a == pow2 (a - b - 1) * pow2 (Z.succ b)).
  { rewrite <- pow2_add. now replace (a - b - 1 + Z.succ b)%Z with a by lia. }
  pose proof (pow2_pos b) as Pb. pose proof (pow2_pos (Z.succ b)) as Pb1.
  pose proof (pow2_pos (a - b + 1)) as Pk1. pose proof (pow2_pos (a - b - 1)) as Pk0.
  assert (Hup : Qabs x < pow2 (a - b + 1)).
  { apply Qnot_le_lt. intros G.
    assert (H : pow2 (a - b + 1) * pow2 b <= Qabs x * inject_Z d) by nra.
    rewrite Hq, <- E1 in H. exact (Qle_not_lt _ _ H Hn2). }
  assert (Hlo : pow2 (a - b - 1) < Qabs x).
  { apply Qnot_le_lt. intros G.
    assert (H : Qabs x * inject_Z d < pow2 (a - b - 1) * pow2 (Z.succ b)) by nra.
    rewrite Hq, <- E2 in H. exact (Qlt_not_le _ _ H Hn1). }
  destruct (Qle_bool (pow2 (a - b)) (Qabs x)) eqn:E.
  - apply Qle_bool_iff in E. split; assumption.
  - split; [now apply Qlt_le_weak|].
    replace (a - b - 1 + 1)%Z with (a - b)%Z by lia.
    apply Qnot_le_lt. intros G. apply Qle_bool_iff in G. congruence.
Qed.

Lemma floor_log2_mono (x y : Q) :
  0 < x -> x <= y -> (floor_log2 x <= floor_log2 y)%Z.
Proof.
  intros Hx Hxy.
  destruct (floor_log2_spec x) as [Hx1 _]; [lra|].
  destruct (floor_log2_spec y) as [_ Hy2]; [lra|].
  rewrite Qabs_pos in Hx1, Hy2 by lra.
  destruct (Z_le_gt_dec (floor_log2 x) (floor_log2 y)) as [|G]; [assumption|].
  pose proof (pow2_le (floor_log2 y + 1) (floor_log2 x) ltac:(lia)). lra.
Qed.

Lemma last_place_mono (x y : Q) :
  0 < x -> x <= y -> (last_place x <= last_place y)%Z.
Proof.
  intros Hx Hxy. unfold last_place.
  pose proof (floor_log2_mono x y Hx Hxy). lia.
Qed.

Lemma round_half_even_le (x : Q) (n : Z) :
  x <= inject_Z n -> (round_half_even x <= n)%Z.
Proof.
  intros Hx. unfold round_half_even.
  assert (Hf : (Qfloor x <= n)%Z).
  { rewrite <- (Qfloor_Z n). now apply Qfloor_resp_le. }
  pose proof (Qfloor_le x) as Hfl.
  assert (Hfrac : (Qfloor x = n)%Z -> x - inject_Z (Qfloor x) < 1 # 2).
  { intros E. rewrite E in *. lra. }
  destruct (Qcompare (x - inject_Z (Qfloor x)) (1 # 2)) eqn:E.
  - apply Qeq_alt in E.
    destruct (Z.even (Qfloor x)); [assumption|].
    destruct (Z.eq_dec (Qfloor x) n) as [En|En]; [|lia].
    specialize (Hfrac En). lra.
  - assumption.
  - apply Qgt_alt in E.
    destruct (Z.eq_dec (Qfloor x) n) as [En|En]; [|lia].
    specialize (Hfrac En). lra.
Qed.

Lemma round_half_even_ge (x : Q) (n : Z) :
  inject_Z n <= x -> (n <= round_half_even x)%Z.
Proof.
  intros Hx. unfold round_half_even.
  assert (Hf : (n <= Qfloor x)%Z).
  { rewrite <- (Qfloor_Z n). now apply Qfloor_resp_le. }
  destruct (Qcompare _ _); [destruct (Z.even _)| |]; lia.
Qed.

Lemma round_half_even_mono (x y : Q) :
  x <= y -> (round_half_even x <= round_half_even y)%Z.
Proof.
  intros Hxy. pose proof (Qfloor_resp_le x y Hxy) as Hf.
  unfold round_half_even.
  destruct (Z.eq_dec (Qfloor x) (Qfloor y)) as [E|E].
  - rewrite <- E.
    destruct (Qcompare_spec (x - inject_Z (Qfloor x)) (1 # 2)) as [Ex|Ex|Ex];
      destruct (Qcompare_spec (y - inject_Z (Qfloor x)) (1 # 2)) as [Ey|Ey|Ey];
      try (destruct (Z.even (Qfloor x))); try lia; exfalso; lra.
  - destruct (Qcompare (x - inject_Z (Qfloor x)) (1 # 2));
      destruct (Qcompare (y - inject_Z (Qfloor y)) (1 # 2));
      try (destruct (Z.even (Qfloor x))); try (destruct (Z.even (Qfloor y))); lia.
Qed.

Lemma rnd_nearest (x : Q) :
  rnd x = if finite (Qred (nearest x)) then Qred (nearest x) else inf_of x.
Proof. reflexivity. Qed.

Lemma last_place_low (x : Q) : 0 < x -> pow2 (last_place x + 52) <= x \/ last_place x = (- 1074)%Z.
Proof.
  intros Hx. unfold last_place.
  destruct (floor_log2_spec x) as [H _]; [lra|]. rewrite Qabs_pos in H by lra.
  destruct (Z_le_gt_dec (- 1074) (floor_log2 x - 52)) as [G|G].
  - left. rewrite Z.max_l by assumption.
    now replace (floor_log2 x - 52 + 52)%Z with (floor_log2 x) by lia.
  - right. lia.
Qed.

Lemma last_place_high (x : Q) : 0 < x -> x < pow2 (last_place x + 53).
Proof.
  intros Hx. unfold last_place.
  destruct (floor_log2_spec x) as [_ H]; [lra|]. rewrite Qabs_pos in H by lra.
  eapply Qlt_le_trans; [exact H|]. apply pow2_le. lia.
Qed.

Lemma nearest_mono (x y : Q) : 0 < x -> x <= y -> nearest x <= nearest y.
Proof.
  intros Hx Hxy. unfold nearest.
  pose proof (last_place_mono x y Hx Hxy) as He.
  set (ex := last_place x) in *. set (ey := last_place y) in *.
  destruct (Z.eq_dec ex ey) as [E|E].
  - rewrite <- E.
    assert (H : (round_half_even (x * pow2 (- ex))
                 <= round_half_even (y * pow2 (- ex)))%Z).
    { apply round_half_even_mono. pose proof (pow2_pos (- ex)). nra. }
    rewrite Zle_Qle in H. pose proof (pow2_pos ex). nra.
  - assert (Hlt : (ex + 53 <= ey + 52)%Z) by lia.
    pose proof (last_place_high x Hx) as Hxh. fold ex in Hxh.
    destruct (last_place_low y ltac:(lra)) as [Hyl|Hyl]; fold ey in Hyl;
      [|pose proof (Z.le_max_r (floor_log2 x - 52) (- 1074)) as G;
        fold (last_place x) in G; fold ex in G; lia].
    assert (H1 : (round_half_even (x * pow2 (- ex)) <= 2 ^ 53)%Z).
    { apply round_half_even_le. rewrite <- pow2_inject by lia.
      assert (Ex : pow2 (ex + 53) == pow2 53 * pow2 ex) by (rewrite <- pow2_add; now replace (53 + ex)%Z with (ex + 53)%Z by lia).
      pose proof (pow2_inv ex). pose proof (pow2_pos (- ex)). pose proof (pow2_pos ex).
      pose proof (pow2_pos 53). rewrite Ex in Hxh.
      assert (x * pow2 (- ex) <= pow2 53 * (pow2 ex * pow2 (- ex))) by nra.
      nra. }
    assert (H2 : (2 ^ 52 <= round_half_even (y * pow2 (- ey)))%Z).
    { apply round_half_even_ge. rewrite <- pow2_inject by lia.
      assert (Ey : pow2 (ey + 52) == pow2 52 * pow2 ey) by (rewrite <- pow2_add; now replace (52 + ey)%Z with (ey + 52)%Z by lia).
      pose proof (pow2_inv ey). pose proof (pow2_pos (- ey)). pose proof (pow2_pos ey).
      pose proof (pow2_pos 52). rewrite Ey in Hyl.
      assert (pow2 52 * (pow2 ey * pow2 (- ey)) <= y * pow2 (- ey)) by nra.
      nra. }
    rewrite Zle_Qle, <- pow2_inject in H1 by lia.
    rewrite Zle_Qle, <- pow2_inject in H2 by lia.
    apply Qle_trans with (pow2 (ex + 53)).
    + rewrite pow2_add. pose proof (pow2_pos ex). rewrite (Qmult_comm (pow2 ex)).
      apply Qmult_le_compat_r; [assumption | lra].
    + apply Qle_trans with (pow2 (ey + 52)); [now apply pow2_le|].
      rewrite pow2_add. pose proof (pow2_pos ey). rewrite (Qmult_comm (pow2 ey)).
      apply Qmult_le_compat_r; [assumption | lra].
Qed.

Lemma finite_true (x : Q) : finite x = true <-> Qabs x < infinity.
Proof.
  unfold finite. rewrite negb_true_iff, <- not_true_iff_false, Qle_bool_iff.
  split; [apply Qnot_le_lt | apply Qlt_not_le].
Qed.

Lemma finite_false (x : Q) : finite x = false <-> infinity <= Qabs x.
Proof. unfold finite. rewrite negb_false_iff. apply Qle_bool_iff. Qed.

Lemma finite_between (x y : Q) :
  0 <= x -> x <= y -> finite y = true -> finite x = true.
Proof.
  intros Hx Hxy Hy. apply finite_true in Hy. apply finite_true.
  rewrite Qabs_pos in * by lra. lra.
Qed.

Lemma nearest_zero (x : Q) : x == 0 -> nearest x == 0.
Proof.
  intros Hx. unfold nearest.
  assert (H : round_half_even (x * pow2 (- last_place x)) = 0%Z).
  { pose proof (pow2_pos (- last_place x)).
    apply Z.le_antisymm.
    - apply round_half_even_le. change (inject_Z 0) with 0. nra.
    - apply round_half_even_ge. change (inject_Z 0) with 0. nra. }
  rewrite H. change (inject_Z 0) with 0. lra.
Qed.

Lemma nearest_nonneg (x : Q) : 0 <= x -> 0 <= nearest x.
Proof.
  intros Hx. unfold nearest. apply Qmult_le_0_compat.
  - change 0 with (inject_Z 0). rewrite <- Zle_Qle.
    apply round_half_even_nonneg.
    apply Qmult_le_0_compat; [assumption|]. apply Qlt_le_weak, pow2_pos.
  - apply Qlt_le_weak, pow2_pos.
Qed.

Lemma nearest_nonpos (x : Q) : x <= 0 -> nearest x <= 0.
Proof.
  intros Hx. unfold nearest.
  assert (H : (round_half_even (x * pow2 (- last_place x)) <= 0)%Z).
  { apply round_half_even_le. change (inject_Z 0) with 0.
    pose proof (pow2_pos (- last_place x)). nra. }
  rewrite Zle_Qle in H. change (inject_Z 0) with 0 in H.
  pose proof (pow2_pos (last_place x)). nra.
Qed.

Lemma rnd_zero (x : Q) : x == 0 -> rnd x == 0.
Proof.
  intros Hx. rewrite rnd_nearest.
  pose proof (nearest_zero x Hx) as Hc.
  assert (Hf : finite (Qred (nearest x)) = true).
  { apply finite_true. rewrite Qred_correct, Hc. apply infinity_pos. }
  rewrite Hf, Qred_correct. exact Hc.
Qed.

Lemma rnd_nonpos (x : Q) : x <= 0 -> rnd x <= 0.
Proof.
  intros Hx. destruct (Qeq_dec x 0) as [E|E].
  - rewrite (rnd_zero x E). apply Qle_refl.
  - rewrite rnd_nearest. destruct (finite _).
    + rewrite Qred_correct. now apply nearest_nonpos.
    + rewrite inf_of_neg by lra. pose proof infinity_pos. lra.
Qed.

Lemma rnd_le_infinity (x : Q) : rnd x <= infinity.
Proof.
  rewrite rnd_nearest. destruct (finite _) eqn:E.
  - apply finite_true in E. pose proof (Qle_Qabs (Qred (nearest x))). lra.
  - unfold inf_of. pose proof infinity_pos. destruct (Qle_bool 0 x); lra.
Qed.

(** Rounding keeps the order of the numbers that are not negative. *)
Lemma rnd_mono (x y : Q) : 0 <= x -> x <= y -> rnd x <= rnd y.
Proof.
  intros Hx Hxy. destruct (Qeq_dec x 0) as [E|E].
  { rewrite (rnd_zero x E). apply rnd_nonneg. lra. }
  assert (Hpos : 0 < x) by lra.
  pose proof (nearest_mono x y Hpos Hxy) as Hc.
  pose proof (nearest_nonneg x Hx) as Hcx.
  rewrite (rnd_nearest y). destruct (finite (Qred (nearest y))) eqn:Fy.
  - assert (Fx : finite (Qred (nearest x)) = true).
    { apply (finite_between _ (Qred (nearest y))); [| |assumption];
        rewrite ?Qred_correct; assumption. }
    rewrite rnd_nearest, Fx, !Qred_correct. exact Hc.
  - rewrite inf_of_nonneg by lra. apply rnd_le_infinity.
Qed.

Lemma sub_neg (x y : Q) : x < y -> sub x y <= 0.
Proof.
  intros H. unfold sub. destruct (_ && _).
  - apply rnd_nonpos. lra.
  - rewrite inf_of_neg by lra. pose proof infinity_pos. lra.
Qed.

Lemma infinite_neg (x : Q) : finite x = false -> x <= 0 -> x < 0.
Proof.
  intros Hf Hx. apply finite_false in Hf. pose proof infinity_pos.
  destruct (Qeq_dec x 0) as [E|E]; [|lra].
  rewrite E in Hf. change (Qabs 0) with 0 in Hf. lra.
Qed.

Lemma quot_nonpos (x y : Q) : x <= 0 -> 0 < y -> quot x y <= 0.
Proof.
  intros Hx Hy. unfold quot.
  destruct (finite y); [|apply Qle_refl].
  assert (H : forall z, z <= 0 -> z / y <= 0).
  { intros z Hz. apply Qle_shift_div_r; lra. }
  destruct (finite x) eqn:Fx.
  - apply rnd_nonpos. now apply H.
  - pose proof (infinite_neg x Fx Hx) as Hn.
    assert (G : x / y < 0) by (apply Qlt_shift_div_r; lra).
    rewrite inf_of_neg by assumption. pose proof infinity_pos. lra.
Qed.

Lemma mul_100_nonpos (x : Q) : x <= 0 -> mul x 100 <= 0.
Proof.
  intros Hx. unfold mul. destruct (finite x) eqn:Fx; simpl.
  - change (finite 100) with true. apply rnd_nonpos. lra.
  - pose proof (infinite_neg x Fx Hx) as Hn.
    rewrite inf_of_neg by lra. pose proof infinity_pos. lra.
Qed.

Lemma round2_nonpos (x : Q) : x <= 0 -> round2 x <= 0.
Proof.
  intros Hx. unfold round2. destruct (finite x); [|assumption].
  apply rnd_nonpos.
  assert (H : (round_half_even (x * 100) <= 0)%Z).
  { apply round_half_even_le. change (inject_Z 0) with 0. lra. }
  unfold Qle. simpl. lia.
Qed.

Lemma rnd_1 : rnd 1 = 1.
Proof. vm_compute. reflexivity. Qed.

Lemma rnd_100 : rnd 100 = 100.
Proof. vm_compute. reflexivity. Qed.

Lemma finite_100 : finite 100 = true.
Proof. vm_compute. reflexivity. Qed.

(** The percentage [((x - y) / x) * 100] of floats [0 <= y < x] lies
    between 0 and 100, and so does its rounding to two places. *)
Lemma percent_bounds (x y : Q) :
  is_float x -> 0 <= y -> y < x ->
  0 <= mul (quot (sub x y) x) 100 <= 100
  /\ 0 <= round2 (mul (quot (sub x y) x) 100) <= 100.
Proof.
  intros [Fx Rx] Hy Hlt.
  assert (Fy : finite y = true) by (apply (finite_between y x); [|lra|]; assumption).
  assert (Ha : 0 <= sub x y <= x).
  { split; [apply sub_nonneg; lra|].
    unfold sub. rewrite Fx, Fy. simpl.
    apply Qle_trans with (rnd x); [|rewrite Rx; apply Qle_refl].
    apply rnd_mono; lra. }
  assert (Fa : finite (sub x y) = true).
  { apply (finite_between _ x); [| |assumption]; apply Ha. }
  assert (Hq : 0 <= quot (sub x y) x <= 1).
  { split; [apply quot_nonneg; lra|].
    unfold quot. rewrite Fx, Fa.
    assert (G : 0 <= sub x y / x <= 1).
    { split; [apply Qle_shift_div_l; lra | apply Qle_shift_div_r; lra]. }
    apply Qle_trans with (rnd 1); [|rewrite rnd_1; apply Qle_refl].
    apply rnd_mono; apply G. }
  assert (Fq : finite (quot (sub x y) x) = true).
  { apply (finite_between _ 100); [| |exact finite_100]; lra. }
  assert (Hm : 0 <= mul (quot (sub x y) x) 100 <= 100).
  { split; [apply mul_nonneg; lra|].
    unfold mul. rewrite Fq, finite_100. simpl.
    apply Qle_trans with (rnd 100); [|rewrite rnd_100; apply Qle_refl].
    apply rnd_mono; lra. }
  split; [exact Hm|]. split; [apply round2_nonneg; lra|].
  assert (Fm : finite (mul (quot (sub x y) x) 100) = true).
  { apply (finite_between _ 100); [| |exact finite_100]; lra. }
  unfold round2. rewrite Fm.
  apply Qle_trans with (rnd 100); [|rewrite rnd_100; apply Qle_refl].
  set (m := mul (quot (sub x y) x) 100) in *.
  assert (H1 : (0 <= round_half_even (m * 100))%Z).
  { apply round_half_even_nonneg. lra. }
  assert (H2 : (round_half_even (m * 100) <= 10000)%Z).
  { apply round_half_even_le. change (inject_Z 10000) with 10000. lra. }
  apply rnd_mono; unfold Qle; simpl; lia.
Qed.

Lemma finite_of_zero (x : Q) : x == 0 -> finite x = true.
Proof.
  intros Hx. apply finite_true. rewrite Hx. apply infinity_pos.
Qed.

Lemma sub_zero (x y : Q) :
  finite x = true -> finite y = true -> x == y -> sub x y == 0.
Proof.
  intros Fx Fy H. unfold sub. rewrite Fx, Fy. apply rnd_zero. lra.
Qed.

Lemma quot_zero (x y : Q) : x == 0 -> quot x y == 0.
Proof.
  intros Hx. unfold quot. rewrite (finite_of_zero x Hx).
  destruct (finite y); [|reflexivity].
  apply rnd_zero. rewrite Hx. reflexivity.
Qed.

Lemma mul_100_zero (x : Q) : x == 0 -> mul x 100 == 0.
Proof.
  intros Hx. unfold mul. rewrite (finite_of_zero x Hx), finite_100.
  apply rnd_zero. rewrite Hx. reflexivity.
Qed.

Lemma round2_zero (x : Q) : x == 0 -> round2 x == 0.
Proof.
  intros Hx. unfold round2. rewrite (finite_of_zero x Hx).
  apply rnd_zero.
  assert (H : round_half_even (x * 100) = 0%Z).
  { apply Z.le_antisymm.
    - apply round_half_even_le. change (inject_Z 0) with 0. lra.
    - apply round_half_even_ge. change (inject_Z 0) with 0. lra. }
  rewrite H. reflexivity.
Qed.

End FloatFacts.

(** ** Evaluation rules *)

Section EvaluationRules.
Import Py Common Scraper.

Lemma discount_of_positive (original current : Q) :
  ~ original == 0 -> current < original ->
  discount_of original current
  = Ok (round2 (mul (quot (sub original current) original) 100)).
Proof.
  intros Ho Hlt. unfold discount_of.
  apply gtb_gt in Hlt as Hg. rewrite Hg.
  rewrite div_nonzero by assumption. reflexivity.
Qed.

Lemma discount_of_zero (original current : Q) :
  original <= current -> discount_of original current = Ok 0.
Proof.
  intros Hle. unfold discount_of. apply gtb_le in Hle. now rewrite Hle.
Qed.

Lemma discount_of_ok (original current : Q) :
  0 <= current -> exists d, discount_of original current = Ok d /\ 0 <= d.
Proof.
  intros Hc. destruct (Qlt_le_dec current original) as [Hlt|Hle].
  - eexists. split; [apply discount_of_positive; [lra | assumption]|].
    apply round2_nonneg, mul_nonneg; [|discriminate].
    apply quot_nonneg; [apply sub_nonneg|]; lra.
  - exists 0. split; [now apply discount_of_zero | apply Qle_refl].
Qed.

Lemma evaluate_fields (product : product) (current original : Q) (i : info) :
  evaluate product current original = Ok i ->
  i_name i = p_name product /\ i_url i = p_url product
  /\ i_current_price i = current /\ i_original_price i = original
  /\ i_threshold i = p_threshold product
  /\ discount_of original current = Ok (i_discount i)
  /\ i_send_email i = send_email_of current original (p_threshold product).
Proof.
  unfold evaluate. destruct (discount_of original current) as [d|e]; simpl.
  - intros [= <-]. simpl. repeat split; reflexivity.
  - discriminate.
Qed.

Lemma evaluate_ok (product : product) (current original : Q) :
  0 <= current -> exists i, evaluate product current original = Ok i.
Proof.
  intros Hc. unfold evaluate.
  destruct (discount_of_ok original current Hc) as (d & Hd & _).
  rewrite Hd. simpl. eexists. reflexivity.
Qed.

Lemma send_email_of_true (current original threshold : Q) :
  send_email_of current original threshold = true
  <-> current < original /\ current <= threshold.
Proof.
  unfold send_email_of. rewrite andb_true_iff, ltb_lt, leb_le. tauto.
Qed.

Lemma send_email_of_false (current original threshold : Q) :
  send_email_of current original threshold = false
  <-> original <= current \/ threshold < current.
Proof.
  unfold send_email_of. rewrite andb_false_iff, ltb_ge.
  unfold leb. rewrite <- not_true_iff_false, Qle_bool_iff.
  split; (intros [H|H]; [now left | right]).
  - now apply Qnot_le_lt.
  - now apply Qlt_not_le.
Qed.

Section ScrapeProduct.
Variable Page : Type.
Variable scrape_amazon scrape_flipkart : string -> Page -> option (Q * Q).

Local Abbreviation scrape_product :=
  (Scraper.scrape_product Page scrape_amazon scrape_flipkart).
Local Abbreviation fetched_prices :=
  (Scraper.fetched_prices Page scrape_amazon scrape_flipkart).
Local Abbreviation scrape_messages := (Scraper.scrape_messages Page scrape_flipkart).

Lemma printed_nil (w : world) : printed [] w = w.
Proof. destruct w. unfold printed. simpl. now rewrite app_nil_r. Qed.

(** [scrape_product] returns [None] when the selected scraper does, and
    otherwise evaluates the fetched prices. *)
Lemma scrape_product_eq (page : Page) (product : product) (w : world) :
  scrape_product page product w
  = match fetched_prices page product with
    | None => Done None (printed (scrape_messages page product) w)
    | Some (current, original) =>
        match evaluate product current original with
        | Ok i => Done (Some i) (printed (scrape_messages page product) w)
        | Raise e => Threw e (printed (scrape_messages page product) w)
        end
    end.
Proof.
  unfold Scraper.scrape_product, Scraper.fetched_prices, Scraper.scrape_messages.
  destruct (contains "amazon" (p_url product)).
  { rewrite printed_nil.
    destruct (scrape_amazon _ _) as [[c o]|]; [|reflexivity].
    unfold mbind, lift. destruct (evaluate _ _ _); reflexivity. }
  destruct (contains "flipkart" (p_url product)).
  { unfold mbind at 1. unfold print.
    fold (printed [FlipkartScrapedPrices (scrape_flipkart (p_url product) page)] w).
    destruct (scrape_flipkart _ _) as [[c o]|]; [|reflexivity].
    unfold mbind, lift. destruct (evaluate _ _ _); reflexivity. }
  rewrite printed_nil.
  unfold mbind, lift. destruct (evaluate _ _ _); reflexivity.
Qed.

End ScrapeProduct.

Lemma scrape_product_evaluated
      (Page : Type) (scrape_amazon scrape_flipkart : string -> Page -> option (Q * Q))
      (page : Page) (product : product) (w w' : world) (i : info) :
  Scraper.scrape_product Page scrape_amazon scrape_flipkart page product w
  = Done (Some i) w' ->
  exists current original, evaluate product current original = Ok i.
Proof.
  intros H. rewrite scrape_product_eq in H.
  destruct (fetched_prices _ _ _ _ _) as [[c o]|]; [|discriminate].
  destruct (evaluate product c o) as [i'|e] eqn:E; [|discriminate].
  injection H as -> _. now exists c, o.
Qed.

(** The dictionary of a product whose scraper returns prices, the
    current one not negative, is the evaluation of those prices. *)
Lemma scrape_product_fetched
      (Page : Type) (scrape_amazon scrape_flipkart : string -> Page -> option (Q * Q))
      (page : Page) (product : product) (w : world) (current original : Q) :
  Scraper.fetched_prices Page scrape_amazon scrape_flipkart page product
  = Some (current, original) ->
  0 <= current ->
  exists i w',
    Scraper.scrape_product Page scrape_amazon scrape_flipkart page product w
    = Done (Some i) w'
    /\ evaluate product current original = Ok i.
Proof.
  intros Hf Hc. rewrite scrape_product_eq, Hf.
  destruct (evaluate_ok product current original Hc) as [i Hi].
  rewrite Hi. now eexists _, _.
Qed.

(** The dictionary [scrape_product] returns is the evaluation of the
    prices its scraper returned. *)
Lemma scrape_product_returned
      (Page : Type) (scrape_amazon scrape_flipkart : string -> Page -> option (Q * Q))
      (page : Page) (product : product) (w w' : world) (i : info)
      (current original : Q) :
  Scraper.fetched_prices Page scrape_amazon scrape_flipkart page product
  = Some (current, original) ->
  Scraper.scrape_product Page scrape_amazon scrape_flipkart page product w
  = Done (Some i) w' ->
  evaluate product current original = Ok i.
Proof.
  intros Hf H. rewrite scrape_product_eq, Hf in H.
  destruct (evaluate product current original) as [i'|e]; [|discriminate].
  now injection H as -> _.
Qed.




(** The discount of 90 against 120 is 25 percent. *)
Example discount_of_example : discount_of 120 90 = Ok 25.
Proof. vm_compute. reflexivity. Qed.



End EvaluationRules.

(** ** The price ledger *)

Section Ledger.
Import Py Db.

Lemma max_of_none (l : list Q) : max_of l = None -> l = [].
Proof.
  destruct l as [|x l]; [reflexivity|]. simpl.
  destruct (max_of l); discriminate.
Qed.

Lemma Qmax_cases (x y : Q) :
  (Qmax x y = y /\ x <= y) \/ (Qmax x y = x /\ y <= x).
Proof.
  unfold Qmax. destruct (Qle_bool x y) eqn:E.
  - left. split; [reflexivity|]. now apply Qle_bool_iff.
  - right. split; [reflexivity|].
    apply Qlt_le_weak, Qnot_le_lt. intros H. apply Qle_bool_iff in H. congruence.
Qed.

(** [MAX] returns an element of the column that bounds all of it. *)
Lemma max_of_some (l : list Q) (m : Q) :
  max_of l = Some m -> In m l /\ Forall (fun q => q <= m) l.
Proof.
  revert m. induction l as [|x l IH]; intros m; simpl; [discriminate|].
  destruct (max_of l) as [m'|] eqn:E.
  - intros [= <-]. destruct (IH m' eq_refl) as [Hin Hall].
    destruct (Qmax_cases x m') as [[-> Hle]|[-> Hle]].
    + split; [now right|]. constructor; assumption.
    + split; [now left|]. constructor; [apply Qle_refl|].
      eapply List.Forall_impl; [|exact Hall]. intros q Hq. simpl in Hq.
      eapply Qle_trans; eassumption.
  - intros [= <-]. apply max_of_none in E. subst l.
    split; [now left|]. constructor; [apply Qle_refl | constructor].
Qed.

(** The original price [save_price] infers is the largest of the prices
    on record and the current price, when the latter is not negative. *)
Lemma infer_original_price_max (prior : list Q) (p : Q) :
  0 <= p ->
  let o := infer_original_price (max_of prior) p in
  In o (p :: prior) /\ Forall (fun q => q <= o) (p :: prior)
  /\ (prior = [] -> o = p).
Proof.
  intros Hp o. subst o. unfold infer_original_price.
  destruct (max_of prior) as [m|] eqn:E.
  - destruct (max_of_some _ _ E) as [Hin Hall].
    destruct (truthy m && gtb m p) eqn:G.
    + apply andb_true_iff in G as [_ G]. apply gtb_gt in G.
      split; [now right|]. split.
      * constructor; [now apply Qlt_le_weak | assumption].
      * intros ->. destruct Hin.
    + assert (Hm : m <= p).
      { apply andb_false_iff in G as [G|G].
        - apply truthy_false in G. lra.
        - now apply gtb_le in G. }
      split; [now left|]. split.
      * constructor; [apply Qle_refl|].
        eapply List.Forall_impl; [|exact Hall]. intros q Hq. simpl in Hq. lra.
      * reflexivity.
  - apply max_of_none in E. subst prior.
    split; [now left|]. split; [|reflexivity].
    constructor; [apply Qle_refl | constructor].
Qed.




(** *** Sorting *)

Lemma insert_by_last {A : Type} (le : A -> A -> bool) (x : A) (l : list A) :
  Forall (fun y => le x y = false) l -> insert_by le x l = (l ++ [x])%list.
Proof.
  induction 1 as [|y l Hy _ IH]; simpl; [reflexivity|].
  now rewrite Hy, IH.
Qed.

(** Rows whose dates increase come out of [ORDER BY date DESC] in the
    reverse order. *)
Lemma order_by_date_desc_increasing (l : list row) :
  StronglySorted Z.lt (map date l) -> order_by date_desc l = rev l.
Proof.
  induction l as [|x l IH]; simpl; intros H; [reflexivity|].
  apply StronglySorted_inv in H as [Hs Hx].
  unfold order_by in *. simpl. rewrite IH by assumption.
  apply insert_by_last. apply Forall_rev.
  rewrite List.Forall_map in Hx.
  eapply List.Forall_impl; [|exact Hx]. intros y Hy. simpl in Hy.
  unfold date_desc. apply Z.leb_gt. exact Hy.
Qed.

Lemma find_insert_by_name (n : string) (x : joined) (l : list joined) :
  List.find (fun j => String.eqb (j_name j) n) (insert_by by_name x l)
  = List.find (fun j => String.eqb (j_name j) n) (x :: l).
Proof.
  induction l as [|y l IH]; [reflexivity|].
  simpl insert_by. destruct (by_name x y) eqn:E; [reflexivity|].
  simpl in *. destruct (String.eqb (j_name x) n) eqn:Ex.
  - apply String.eqb_eq in Ex.
    assert (Hne : String.eqb (j_name y) n = false).
    { apply String.eqb_neq. intros Ey. unfold by_name in E.
      rewrite Ex, Ey in E.
      destruct (String.leb_total n n); congruence. }
    now rewrite Hne, IH.
  - destruct (String.eqb (j_name y) n); [reflexivity | exact IH].
Qed.

(** [ORDER BY ph1.name] keeps the first row of each name first. *)
Lemma find_order_by_name (n : string) (l : list joined) :
  List.find (fun j => String.eqb (j_name j) n) (order_by by_name l)
  = List.find (fun j => String.eqb (j_name j) n) l.
Proof.
  induction l as [|x l IH]; [reflexivity|].
  unfold order_by in *. simpl fold_right. rewrite find_insert_by_name.
  simpl. now rewrite IH.
Qed.

Lemma find_filter_implied {A : Type} (P Q : A -> bool) (l : list A) :
  (forall x, P x = true -> Q x = true) ->
  List.find P (List.filter Q l) = List.find P l.
Proof.
  intros H. induction l as [|x l IH]; [reflexivity|]. simpl.
  destruct (P x) eqn:Px.
  - rewrite (H x Px). simpl. now rewrite Px.
  - destruct (Q x); simpl; [rewrite Px|]; exact IH.
Qed.

(** [DISTINCT] keeps the first row of each name. *)
Lemma find_distinct (n : string) (l : list joined) :
  List.find (fun j => String.eqb (j_name j) n) (distinct l)
  = List.find (fun j => String.eqb (j_name j) n) l.
Proof.
  induction l as [|x l IH]; [reflexivity|]. simpl.
  destruct (String.eqb (j_name x) n) eqn:Ex; [reflexivity|].
  rewrite find_filter_implied; [exact IH|].
  intros y Hy. apply negb_true_iff. apply not_true_iff_false. intros Hxy.
  unfold joined_eqb in Hxy. repeat (apply andb_true_iff in Hxy as [Hxy _]).
  apply String.eqb_eq in Hxy, Hy. rewrite Hxy, Hy in Ex.
  now rewrite String.eqb_refl in Ex.
Qed.

Lemma find_map {A B : Type} (f : A -> B) (P : B -> bool) (l : list A) :
  List.find P (map f l) = option_map f (List.find (fun x => P (f x)) l).
Proof.
  induction l as [|x l IH]; [reflexivity|]. simpl.
  destruct (P (f x)); [reflexivity | exact IH].
Qed.

Lemma find_filter {A : Type} (P Q : A -> bool) (l : list A) :
  List.find P (List.filter Q l) = List.find (fun x => Q x && P x) l.
Proof.
  induction l as [|x l IH]; [reflexivity|]. simpl.
  destruct (Q x); simpl; [destruct (P x); [reflexivity | exact IH] | exact IH].
Qed.

(** *** The query of [get_product_summary] *)

Lemma max_date_of_last (l : list Z) (d : Z) :
  StronglySorted Z.lt (l ++ [d]) -> max_date_of (l ++ [d]) = Some d.
Proof.
  induction l as [|x l IH]; simpl; intros H; [reflexivity|].
  apply StronglySorted_inv in H as [Hs Hx].
  rewrite IH by assumption. f_equal.
  apply List.Forall_app in Hx as [_ Hx]. apply List.Forall_inv in Hx. lia.
Qed.

Lemma date_determines_row (l : list row) (r r' : row) :
  StronglySorted Z.lt (map date l) -> In r l -> In r' l ->
  date r = date r' -> r = r'.
Proof.
  induction l as [|x l IH]; simpl; intros H Hr Hr' E; [contradiction|].
  apply StronglySorted_inv in H as [Hs Hx].
  rewrite List.Forall_map, List.Forall_forall in Hx.
  destruct Hr as [<-|Hr], Hr' as [<-|Hr'].
  - reflexivity.
  - specialize (Hx _ Hr'). simpl in Hx. lia.
  - specialize (Hx _ Hr). simpl in Hx. lia.
  - now apply IH.
Qed.

Section Product.

(** The rows of one product: [older], then [last]; their dates
    increase. *)
Variable t : table.
Variable n : string.
Variable older : list row.
Variable last : row.
Hypothesis rows_of_n : with_name n t = (older ++ [last])%list.
Hypothesis dates_increase : StronglySorted Z.lt (map date (with_name n t)).

Lemma last_in_table : In last t /\ name last = n.
Proof.
  assert (H : In last (with_name n t)).
  { rewrite rows_of_n. apply in_or_app. right. now left. }
  unfold with_name in H. apply filter_In in H as [Hin Hn].
  split; [assumption | now apply String.eqb_eq].
Qed.

Lemma max_date_last : max_date n t = Some (date last).
Proof.
  unfold max_date. pose proof dates_increase as H.
  rewrite rows_of_n in *. rewrite map_app in *. simpl in *.
  now apply max_date_of_last.
Qed.

Lemma find_latest :
  List.find (fun r => is_latest t r && String.eqb (name r) n) t = Some last.
Proof.
  destruct last_in_table as [Hin Hn].
  destruct (List.find _ t) as [r|] eqn:E.
  - apply find_some in E as [Hr Hp].
    apply andb_true_iff in Hp as [Hl Hrn].
    assert (Hname : name r = n) by now apply String.eqb_eq.
    unfold is_latest in Hl. rewrite Hname, max_date_last in Hl.
    apply Z.eqb_eq in Hl. f_equal.
    apply (date_determines_row (with_name n t)); try assumption.
    + unfold with_name. apply filter_In. now split.
    + unfold with_name. apply filter_In. split; [assumption|].
      now apply String.eqb_eq.
  - apply find_none with (x := last) in E; [|assumption].
    unfold is_latest in E. rewrite Hn, max_date_last, Z.eqb_refl in E.
    now rewrite String.eqb_refl in E.
Qed.

(** The first row of the query for the product is its latest row. *)
Lemma find_summary_query :
  List.find (fun j => String.eqb (j_name j) n) (summary_query t)
  = Some (select_columns t last).
Proof.
  unfold summary_query.
  rewrite find_order_by_name, find_distinct, find_map, find_filter.
  simpl. now rewrite find_latest.
Qed.

(** The price before the latest one is that of the last of the older
    rows. *)
Lemma select_previous_price_older :
  select_previous_price n t
  = match rev older with
    | r :: _ => Some (price r)
    | [] => None
    end.
Proof.
  unfold select_previous_price.
  rewrite order_by_date_desc_increasing by exact dates_increase.
  rewrite rows_of_n, rev_app_distr. simpl.
  destruct (rev older); reflexivity.
Qed.

End Product.

(** *** The loop of [get_product_summary] *)

Lemma summarize_eq (data : joined) : summarize data = Ok (summary_of data).
Proof.
  unfold summarize, summary_of.
  destruct (j_previous_price data) as [previous|]; [|reflexivity].
  destruct (truthy previous) eqn:E; [|reflexivity].
  apply truthy_true in E. now rewrite div_nonzero.
Qed.

Lemma in_dict_item_of (n : string) (d : list (string * summary)) :
  in_dict n d = match item_of n d with Some _ => true | None => false end.
Proof.
  induction d as [|kv d IH]; [reflexivity|]. unfold in_dict, item_of in *.
  simpl. destruct (String.eqb (fst kv) n); [reflexivity | exact IH].
Qed.

Lemma item_of_app (n : string) (d : list (string * summary)) (kv : string * summary) :
  item_of n (d ++ [kv])
  = match item_of n d with
    | Some x => Some x
    | None => if String.eqb (fst kv) n then Some kv else None
    end.
Proof.
  induction d as [|kv' d IH]; [reflexivity|]. unfold item_of in *. simpl.
  destruct (String.eqb (fst kv') n); [reflexivity | exact IH].
Qed.

(** The loop never raises; it keeps the items of the dictionary and adds,
    for each other name, the entry of the first row of that name. *)
Lemma summary_loop_items (rows : list joined) (d : list (string * summary)) :
  exists d',
    summary_loop rows d = Ok d'
    /\ (Forall key_is_name d -> Forall key_is_name d')
    /\ forall n,
        item_of n d'
        = match item_of n d with
          | Some kv => Some kv
          | None =>
              option_map (fun j => (j_name j, summary_of j))
                         (List.find (fun j => String.eqb (j_name j) n) rows)
          end.
Proof.
  revert d. induction rows as [|data rest IH]; intros d.
  - exists d. simpl. repeat split; [auto|]. intros n. now destruct (item_of n d).
  - simpl. rewrite summarize_eq. simpl.
    rewrite in_dict_item_of.
    destruct (item_of (j_name data) d) as [kv|] eqn:E.
    + destruct (IH d) as (d' & Hd' & Hk & Hi).
      exists d'. repeat split; [assumption | assumption|].
      intros n. rewrite Hi.
      destruct (item_of n d) eqn:En; [reflexivity|].
      destruct (String.eqb (j_name data) n) eqn:Ex; [|reflexivity].
      apply String.eqb_eq in Ex. congruence.
    + destruct (IH (d ++ [(j_name data, summary_of data)])%list)
        as (d' & Hd' & Hk & Hi).
      exists d'. repeat split; [assumption | |].
      * intros Hd. apply Hk. apply List.Forall_app. split; [assumption|].
        constructor; [reflexivity | constructor].
      * intros n. rewrite Hi, item_of_app. simpl.
        destruct (item_of n d); [reflexivity|].
        destruct (String.eqb (j_name data) n); reflexivity.
Qed.

Lemma entry_of_items (n : string) (d : list (string * summary)) :
  Forall key_is_name d ->
  entry_of n (map snd d) = option_map snd (item_of n d).
Proof.
  induction 1 as [|kv d Hkv _ IH]; [reflexivity|].
  unfold entry_of, item_of in *. simpl. rewrite <- Hkv.
  destruct (String.eqb (fst kv) n); [reflexivity | exact IH].
Qed.

(** [get_product_summary] never raises, and its entry for a name is
    built from the first row of the query with that name. *)
Lemma get_product_summary_entries (t : table) :
  exists l,
    get_product_summary t = Ok l
    /\ forall n,
        entry_of n l
        = option_map summary_of
            (List.find (fun j => String.eqb (j_name j) n) (summary_query t)).
Proof.
  unfold get_product_summary.
  destruct (summary_loop_items (summary_query t) []) as (d & Hd & Hk & Hi).
  rewrite Hd. simpl. eexists. split; [reflexivity|].
  intros n. rewrite entry_of_items by (apply Hk; constructor).
  rewrite Hi. simpl. now destruct (List.find _ _).
Qed.

(** The entry of a product whose rows have increasing dates: it is built
    from the latest row, and its previous price is that of the row
    before. *)
Lemma summary_entry (t : table) (n : string) (older : list row) (last : row) :
  with_name n t = (older ++ [last])%list ->
  StronglySorted Z.lt (map date (with_name n t)) ->
  exists l e,
    get_product_summary t = Ok l /\ entry_of n l = Some e
    /\ e = summary_of (select_columns t last)
    /\ s_current_price e = price last
    /\ s_previous_price e
       = match rev older with
         | r :: _ => Some (price r)
         | [] => None
         end.
Proof.
  intros Hrows Hdates.
  destruct (get_product_summary_entries t) as (l & Hl & He).
  exists l, (summary_of (select_columns t last)).
  split; [assumption|]. split.
  - rewrite He, (find_summary_query t n older last) by assumption. reflexivity.
  - split; [reflexivity|]. split; [reflexivity|]. simpl.
    destruct (last_in_table t n older last Hrows) as [_ ->].
    apply (select_previous_price_older t n older last); assumption.
Qed.

Lemma summary_of_changes (data : joined) :
  let e := summary_of data in
  match s_previous_price e with
  | Some previous =>
      if truthy previous
      then s_price_change e = Some (sub (s_current_price e) previous)
           /\ s_price_change_percent e
              = Some (mul (quot (sub (s_current_price e) previous) previous) 100)
      else s_price_change e = None /\ s_price_change_percent e = None
  | None => s_price_change e = None /\ s_price_change_percent e = None
  end.
Proof.
  unfold summary_of. simpl.
  destruct (j_previous_price data) as [previous|]; [|split; reflexivity].
  destruct (truthy previous); split; reflexivity.
Qed.

(** The entry of a product with a row before its latest one. *)
Lemma summary_entry_two (t : table) (n : string) (older : list row)
      (previous last : row) :
  with_name n t = (older ++ [previous; last])%list ->
  StronglySorted Z.lt (map date (with_name n t)) ->
  exists l e,
    get_product_summary t = Ok l /\ entry_of n l = Some e
    /\ s_current_price e = price last
    /\ s_previous_price e = Some (price previous)
    /\ (if truthy (price previous)
        then s_price_change e = Some (sub (price last) (price previous))
             /\ s_price_change_percent e
                = Some (mul (quot (sub (price last) (price previous))
                                  (price previous)) 100)
        else s_price_change e = None /\ s_price_change_percent e = None).
Proof.
  intros Hrows Hdates.
  destruct (summary_entry t n (older ++ [previous]) last) as (l & e & Hl & He & Hs & Hc & Hp).
  { rewrite Hrows, <- app_assoc. reflexivity. }
  { assumption. }
  rewrite rev_app_distr in Hp. simpl in Hp.
  exists l, e. repeat (split; [assumption|]).
  pose proof (summary_of_changes (select_columns t last)) as H.
  rewrite <- Hs in H. simpl in H. rewrite Hp, Hc in H. exact H.
Qed.

(** The entry of a product with one row. *)
Lemma summary_entry_one (t : table) (n : string) (last : row) :
  with_name n t = [last] ->
  exists l e,
    get_product_summary t = Ok l /\ entry_of n l = Some e
    /\ s_current_price e = price last
    /\ s_previous_price e = None
    /\ s_price_change e = None /\ s_price_change_percent e = None.
Proof.
  intros Hrows.
  destruct (summary_entry t n [] last) as (l & e & Hl & He & Hs & Hc & Hp).
  { exact Hrows. }
  { rewrite Hrows. simpl. repeat constructor. }
  simpl in Hp. exists l, e. repeat (split; [assumption|]).
  pose proof (summary_of_changes (select_columns t last)) as H.
  rewrite <- Hs in H. simpl in H. rewrite Hp in H. exact H.
Qed.

(** C4. For a product whose observations have strictly increasing
    timestamps, the entry of the summary has no previous price when
    there is one observation, and has the price of the second most
    recent observation when there are two or more. *)
Theorem summary_previous_price (t : table) (n : string) :
  StronglySorted Z.lt (map date (with_name n t)) ->
  (forall last,
      with_name n t = [last] ->
      exists l e,
        get_product_summary t = Ok l /\ entry_of n l = Some e
        /\ s_previous_price e = None)
  /\ (forall older previous last,
        with_name n t = (older ++ [previous; last])%list ->
        exists l e,
          get_product_summary t = Ok l /\ entry_of n l = Some e
          /\ s_previous_price e = Some (price previous)).
Proof.
  intros Hdates. split.
  - intros last Hrows.
    destruct (summary_entry_one t n last Hrows) as (l & e & Hl & He & _ & Hp & _).
    now exists l, e.
  - intros older previous last Hrows.
    destruct (summary_entry_two t n older previous last Hrows Hdates)
      as (l & e & Hl & He & _ & Hp & _).
    now exists l, e.
Qed.

Lemma summary_previous_price_witness :
  let t := [widget 1 120 1; gadget 2 450 2; widget 3 90 3] in
  StronglySorted Z.lt (map date (with_name "Widget" t))
  /\ (forall last,
        with_name "Widget" t = [last] ->
        exists l e,
          get_product_summary t = Ok l /\ entry_of "Widget" l = Some e
          /\ s_previous_price e = None)
  /\ (forall older previous last,
        with_name "Widget" t = (older ++ [previous; last])%list ->
        exists l e,
          get_product_summary t = Ok l /\ entry_of "Widget" l = Some e
          /\ s_previous_price e = Some (price previous)).
Proof.
  intros t.
  assert (H : StronglySorted Z.lt (map date (with_name "Widget" t))).
  { simpl. repeat constructor. }
  split; [exact H|].
  exact (summary_previous_price t "Widget" H).
Defined.

(** A widget observed at 120 and then at 90: the previous price is 120,
    the change -30, the percent change -25. *)
Example summary_previous_price_example :
  let t := [widget 1 120 1; gadget 2 450 2; widget 3 90 3] in
  exists l e,
    get_product_summary t = Ok l /\ entry_of "Widget" l = Some e
    /\ s_previous_price e = Some 120 /\ s_current_price e = 90
    /\ s_price_change e = Some (-30)
    /\ s_price_change_percent e = Some (-25).
Proof.
  eexists. eexists. split; [vm_compute; reflexivity|].
  repeat split; vm_compute; reflexivity.
Qed.

(** Every entry of the summary is built from a row of the query: its
    changes are computed from its own current and previous price. *)
Lemma summary_entry_changes (t : table) :
  exists l,
    get_product_summary t = Ok l
    /\ forall n e,
        entry_of n l = Some e ->
        match s_previous_price e with
        | Some previous =>
            if truthy previous
            then s_price_change e = Some (sub (s_current_price e) previous)
                 /\ s_price_change_percent e
                    = Some (mul (quot (sub (s_current_price e) previous) previous)
                                100)
            else s_price_change e = None /\ s_price_change_percent e = None
        | None => s_price_change e = None /\ s_price_change_percent e = None
        end.
Proof.
  destruct (get_product_summary_entries t) as (l & Hl & He).
  exists l. split; [assumption|].
  intros n e Hn. rewrite He in Hn.
  destruct (List.find _ _) as [j|]; [|discriminate].
  injection Hn as <-. apply summary_of_changes.
Qed.

(** C5 as stated fails. A product observed at price 0 and then at price
    50 has two observations, and a summary entry whose price change is
    absent, not [50 - 0]. *)
Lemma price_change_counterexample :
  let t := [widget 1 0 1; widget 2 50 2] in
  with_name "Widget" t = [widget 1 0 1; widget 2 50 2]
  /\ StronglySorted Z.lt (map date (with_name "Widget" t))
  /\ exists l e,
      get_product_summary t = Ok l /\ entry_of "Widget" l = Some e
      /\ s_current_price e = 50 /\ s_previous_price e = Some 0
      /\ s_price_change e = None
      /\ s_price_change e <> Some (50 - 0).
Proof.
  simpl. split; [reflexivity|]. split; [repeat constructor|].
  eexists. eexists. split; [reflexivity|]. simpl.
  repeat split; try reflexivity. discriminate.
Qed.

(** C5, amended. In every entry of the summary, the price change is the
    current price minus the previous price, a subtraction of floats,
    when the previous price is present and not zero, and it is absent
    exactly when the previous price is absent or zero. For a product
    whose observations have strictly increasing timestamps, these are
    the prices of its last two observations: the price change is absent
    exactly when the product has no previous observation or the price of
    its previous observation is zero. *)
Theorem summary_price_change (t : table) (n : string) :
  (exists l,
      get_product_summary t = Ok l
      /\ forall e,
          entry_of n l = Some e ->
          (forall previous,
              s_previous_price e = Some previous -> ~ previous == 0 ->
              s_price_change e = Some (sub (s_current_price e) previous))
          /\ (s_price_change e = None
              <-> s_previous_price e = None
                  \/ exists previous,
                      s_previous_price e = Some previous /\ previous == 0))
  /\ (StronglySorted Z.lt (map date (with_name n t)) ->
      (forall older previous last,
          with_name n t = (older ++ [previous; last])%list ->
          ~ price previous == 0 ->
          exists l e,
            get_product_summary t = Ok l /\ entry_of n l = Some e
            /\ s_price_change e = Some (sub (price last) (price previous))
            /\ s_price_change e = Some (sub (s_current_price e) (price previous)))
      /\ (forall older last,
            with_name n t = (older ++ [last])%list ->
            exists l e,
              get_product_summary t = Ok l /\ entry_of n l = Some e
              /\ (s_price_change e = None
                  <-> older = []
                      \/ exists older' previous,
                          older = (older' ++ [previous])%list
                          /\ price previous == 0))).
Proof.
  split.
  { destruct (summary_entry_changes t) as (l & Hl & H).
    exists l. split; [assumption|]. intros e He. specialize (H n e He).
    destruct (s_previous_price e) as [previous|].
    - destruct (truthy previous) eqn:E.
      + destruct H as [H _]. apply truthy_true in E. split.
        * intros previous' [= <-] _. exact H.
        * rewrite H. split; [discriminate|].
          intros [G|(previous' & [= <-] & G)]; [discriminate | contradiction].
      + destruct H as [H _]. apply truthy_false in E. split.
        * intros previous' [= <-] G. contradiction.
        * split; [|intros _; exact H]. intros _. right. now exists previous.
    - destruct H as [H _]. split; [intros previous [=]|].
      split; [now left | intros _; exact H]. }
  intros Hdates. split.
  - intros older previous last Hrows Hnz.
    destruct (summary_entry_two t n older previous last Hrows Hdates)
      as (l & e & Hl & He & Hc & _ & H).
    apply truthy_true in Hnz. rewrite Hnz in H. destruct H as [H _].
    exists l, e. rewrite Hc. auto.
  - intros older last Hrows.
    induction older as [|r older0 _] using rev_ind.
    + destruct (summary_entry_one t n last Hrows) as (l & e & Hl & He & _ & _ & H & _).
      exists l, e. repeat (split; [assumption|]). split; [now left | intros _; exact H].
    + rewrite <- app_assoc in Hrows. simpl in Hrows.
      destruct (summary_entry_two t n older0 r last Hrows Hdates)
        as (l & e & Hl & He & _ & _ & H).
      exists l, e. repeat (split; [assumption|]).
      destruct (truthy (price r)) eqn:E.
      * destruct H as [H _]. split; [rewrite H; discriminate|].
        intros [Hnil|(older' & previous & Heq & Hz)].
        -- now destruct older0.
        -- apply app_inj_tail in Heq as [_ <-].
           apply truthy_true in E. contradiction.
      * destruct H as [H _]. split; [|intros _; exact H].
        intros _. right. exists older0, r. split; [reflexivity|].
        now apply truthy_false.
Qed.

(** A widget observed at 120 and then at 90 has the price change -30. *)
Lemma summary_price_change_witness :
  let t := [widget 1 120 1; gadget 2 450 2; widget 3 90 3] in
  StronglySorted Z.lt (map date (with_name "Widget" t))
  /\ with_name "Widget" t = ([] ++ [widget 1 120 1; widget 3 90 3])%list
  /\ ~ price (widget 1 120 1) == 0
  /\ exists l e,
      get_product_summary t = Ok l /\ entry_of "Widget" l = Some e
      /\ s_price_change e = Some (sub (price (widget 3 90 3)) (price (widget 1 120 1)))
      /\ s_price_change e = Some (sub (s_current_price e) (price (widget 1 120 1)))
      /\ s_price_change e = Some (-30).
Proof.
  intros t.
  assert (H : StronglySorted Z.lt (map date (with_name "Widget" t))).
  { simpl. repeat constructor. }
  assert (Hnz : ~ price (widget 1 120 1) == 0) by (simpl; discriminate).
  split; [exact H|]. split; [reflexivity|]. split; [exact Hnz|].
  destruct (proj1 (proj2 (summary_price_change t "Widget") H) [] (widget 1 120 1)
                  (widget 3 90 3) eq_refl Hnz) as (l & e & Hl & He & H1 & H2).
  exists l, e. repeat (split; [assumption|]).
  rewrite H1. vm_compute. reflexivity.
Defined.

(** C6 as stated fails. A product observed at price 0 and then at price
    50 at one and the same time has the previous observed price 0, and a
    summary entry with current price 0, previous price 50 and percent
    change -100. *)
Lemma percent_change_counterexample :
  let t := [widget 1 0 1; widget 2 50 1] in
  with_name "Widget" t = [widget 1 0 1; widget 2 50 1]
  /\ price (widget 1 0 1) == 0
  /\ ~ StronglySorted Z.lt (map date (with_name "Widget" t))
  /\ exists l e,
      get_product_summary t = Ok l /\ entry_of "Widget" l = Some e
      /\ s_current_price e = 0 /\ s_previous_price e = Some 50
      /\ s_price_change_percent e = Some (-100)
      /\ s_price_change_percent e <> None.
Proof.
  split; [reflexivity|]. split; [reflexivity|]. split.
  { intros H. simpl in H. inversion H as [|? ? _ H1]. subst.
    inversion H1 as [|? ? H2 _]. subst. lia. }
  eexists. eexists. split; [vm_compute; reflexivity|].
  split; [vm_compute; reflexivity|].
  repeat split; try (vm_compute; reflexivity). discriminate.
Qed.

(** C6, amended. [get_product_summary] never raises. In every entry of
    the summary, the percent change is absent when the previous price is
    absent or zero, and is otherwise
    [((current - previous) / previous) * 100], in the arithmetic of
    floats, on the current and the previous price of the entry. For a
    product whose observations have strictly increasing timestamps,
    these are the prices of its last two observations. *)
Theorem summary_percent_change (t : table) :
  (exists l,
      get_product_summary t = Ok l
      /\ forall n e,
          entry_of n l = Some e ->
          (s_previous_price e = None -> s_price_change_percent e = None)
          /\ forall previous,
              s_previous_price e = Some previous ->
              (previous == 0 -> s_price_change_percent e = None)
              /\ (~ previous == 0 ->
                  s_price_change_percent e
                  = Some (mul (quot (sub (s_current_price e) previous) previous)
                              100)))
  /\ forall n older previous last,
      with_name n t = (older ++ [previous; last])%list ->
      StronglySorted Z.lt (map date (with_name n t)) ->
      exists l e,
        get_product_summary t = Ok l /\ entry_of n l = Some e
        /\ s_current_price e = price last
        /\ s_previous_price e = Some (price previous)
        /\ (price previous == 0 -> s_price_change_percent e = None)
        /\ (~ price previous == 0 ->
            s_price_change_percent e
            = Some (mul (quot (sub (price last) (price previous)) (price previous))
                        100)).
Proof.
  split.
  - destruct (summary_entry_changes t) as (l & Hl & H).
    exists l. split; [assumption|]. intros n e He. specialize (H n e He).
    destruct (s_previous_price e) as [previous|].
    + split; [discriminate|]. intros previous' [= <-]. split.
      * intros Hz. apply truthy_false in Hz. rewrite Hz in H. apply H.
      * intros Hnz. apply truthy_true in Hnz. rewrite Hnz in H. apply H.
    + split; [intros _; apply H | discriminate].
  - intros n older previous last Hrows Hdates.
    destruct (summary_entry_two t n older previous last Hrows Hdates)
      as (l & e & Hl & He & Hc & Hp & H).
    exists l, e. repeat (split; [assumption|]). split.
    + intros Hz. apply truthy_false in Hz. rewrite Hz in H. apply H.
    + intros Hnz. apply truthy_true in Hnz. rewrite Hnz in H. apply H.
Qed.

(** A widget observed at 3 and then at 4 has the percent change
    33.33333333333333, the float of [((4 - 3) / 3) * 100]; observed at 0
    and then at 50 it has none. *)
Lemma summary_percent_change_witness :
  let t := [widget 1 3 1; gadget 2 450 2; widget 3 4 3] in
  let t0 := [widget 1 0 1; gadget 2 450 2; widget 3 50 3] in
  with_name "Widget" t = ([] ++ [widget 1 3 1; widget 3 4 3])%list
  /\ StronglySorted Z.lt (map date (with_name "Widget" t))
  /\ with_name "Widget" t0 = ([] ++ [widget 1 0 1; widget 3 50 3])%list
  /\ StronglySorted Z.lt (map date (with_name "Widget" t0))
  /\ (exists l e,
        get_product_summary t = Ok l /\ entry_of "Widget" l = Some e
        /\ s_current_price e = 4 /\ s_previous_price e = Some 3
        /\ s_price_change_percent e
           = Some (rnd (3333333333333333 # 100000000000000)))
  /\ exists l e,
      get_product_summary t0 = Ok l /\ entry_of "Widget" l = Some e
      /\ s_current_price e = 50 /\ s_previous_price e = Some 0
      /\ s_price_change_percent e = None.
Proof.
  intros t t0.
  assert (H : StronglySorted Z.lt (map date (with_name "Widget" t))).
  { simpl. repeat constructor. }
  assert (H0 : StronglySorted Z.lt (map date (with_name "Widget" t0))).
  { simpl. repeat constructor. }
  split; [reflexivity|]. split; [exact H|].
  split; [reflexivity|]. split; [exact H0|]. split.
  - destruct (proj2 (summary_percent_change t) "Widget" [] (widget 1 3 1)
                    (widget 3 4 3) eq_refl H) as (l & e & Hl & He & Hc & Hp & _ & Hn).
    exists l, e. repeat (split; [assumption|]).
    rewrite Hn by (simpl; discriminate). vm_compute. reflexivity.
  - destruct (proj2 (summary_percent_change t0) "Widget" [] (widget 1 0 1)
                    (widget 3 50 3) eq_refl H0) as (l & e & Hl & He & Hc & Hp & Hz & _).
    exists l, e. repeat (split; [assumption|]).
    apply Hz. reflexivity.
Defined.

End Ledger.

(** ** The product catalog *)

Section Catalog.
Import Py Common.

Lemma filter_chars_lstrip (keep : ascii -> bool) (s : string) :
  (forall c, is_space c = true -> keep c = false) ->
  filter_chars keep (lstrip s) = filter_chars keep s.
Proof.
  intros H. induction s as [|c s IH]; [reflexivity|]. simpl.
  destruct (is_space c) eqn:E; [|reflexivity].
  now rewrite (H c E).
Qed.

Lemma filter_chars_rstrip (keep : ascii -> bool) (s : string) :
  (forall c, is_space c = true -> keep c = false) ->
  filter_chars keep (rstrip s) = filter_chars keep s.
Proof.
  intros H. induction s as [|c s IH]; [reflexivity|]. simpl.
  destruct (rstrip s) as [|a r].
  - simpl in IH. rewrite <- IH.
    destruct (is_space c) eqn:E.
    + now rewrite (H c E).
    + simpl. reflexivity.
  - simpl in *. now rewrite IH.
Qed.

Lemma space_is_not_kept (c : ascii) :
  is_space c = true -> is_digit c || is_dot c = false.
Proof.
  destruct c as [[] [] [] [] [] [] [] []]; vm_compute; congruence.
Qed.

(** The cleaned threshold is the threshold field without its characters
    other than digits and dots: stripping it first changes nothing. *)
Lemma threshold_clean_eq (row : csv_row) :
  threshold_clean row
  = filter_chars (fun c => is_digit c || is_dot c)
                 (str (get_or_empty row "threshold")).
Proof.
  unfold threshold_clean, strip.
  rewrite filter_chars_rstrip, filter_chars_lstrip; auto using space_is_not_kept.
Qed.

(** A row that yields a product has a cleaned threshold that is not
    empty, a name and a URL, and the product has the float value of the
    cleaned threshold. *)
Lemma parse_row_some (row : csv_row) (p : product) :
  parse_row row = Ok (Some p) ->
  threshold_clean row <> ""
  /\ field_truthy (get row "name") = true
  /\ field_truthy (get row "url") = true
  /\ float (threshold_clean row) = Ok (p_threshold p).
Proof.
  unfold parse_row.
  destruct (threshold_clean row) as [|a cleaned] eqn:Ec; [discriminate|].
  destruct (float (String a cleaned)) as [th|e]; simpl; [|discriminate].
  destruct (field_truthy (get row "name")); simpl; [|discriminate].
  destruct (field_truthy (get row "url")); simpl; [|discriminate].
  destruct (getitem row "name") as [nv|e]; simpl; [|discriminate].
  destruct (field_strip nv) as [nm|e]; simpl; [|discriminate].
  destruct (getitem row "url") as [uv|e]; simpl; [|discriminate].
  destruct (field_strip uv) as [u|e]; simpl; [|discriminate].
  destruct (field_lower (get_or_empty row "platform")) as [pf|e]; simpl;
    [|discriminate].
  intros [= <-]. simpl. repeat split; congruence.
Qed.

(** A row with an empty cleaned threshold, or without a name or a URL,
    is skipped: the body of the loop appends nothing and lets no
    exception out. *)
Lemma parse_row_skipped (row : csv_row) :
  threshold_clean row = ""
  \/ field_truthy (get row "name") = false
  \/ field_truthy (get row "url") = false ->
  try_except (parse_row row) row_errors (fun _ => Ok None) = Ok None.
Proof.
  intros H. unfold parse_row.
  destruct (threshold_clean row) as [|a cleaned] eqn:Ec; [reflexivity|].
  destruct H as [H|H]; [discriminate|].
  destruct (float (String a cleaned)) as [th|e] eqn:Ef; simpl.
  - destruct H as [H|H]; rewrite H; simpl; [reflexivity|].
    now rewrite orb_true_r.
  - unfold float in Ef. destruct (split_dot _) as [ip fo].
    destruct (String.length _); [now injection Ef as <-|].
    destruct (digits_value _ _); [discriminate | now injection Ef as <-].
Qed.

Lemma read_rows_products (rows : list csv_row) (acc ps : list product) :
  read_rows rows acc = Ok ps ->
  exists new,
    ps = (acc ++ new)%list
    /\ forall p, In p new -> exists row, In row rows /\ parse_row row = Ok (Some p).
Proof.
  revert acc. induction rows as [|row rest IH]; intros acc; simpl.
  - intros [= <-]. exists []. rewrite app_nil_r. split; [reflexivity|]. intros p [].
  - unfold try_except.
    destruct (parse_row row) as [[p|]|e] eqn:E; simpl.
    + intros H. destruct (IH _ H) as (new & -> & Hnew).
      exists (p :: new). rewrite <- app_assoc. split; [reflexivity|].
      intros q [<-|Hq]; [exists row; split; [now left | assumption]|].
      destruct (Hnew q Hq) as (r & Hr & Hp). exists r. split; [now right | assumption].
    + intros H. destruct (IH _ H) as (new & -> & Hnew).
      exists new. split; [reflexivity|].
      intros q Hq. destruct (Hnew q Hq) as (r & Hr & Hp).
      exists r. split; [now right | assumption].
    + destruct (row_errors e); simpl; [|discriminate].
      intros H. destruct (IH _ H) as (new & -> & Hnew).
      exists new. split; [reflexivity|].
      intros q Hq. destruct (Hnew q Hq) as (r & Hr & Hp).
      exists r. split; [now right | assumption].
Qed.

Lemma fetch_products_ok (file : catalog) : exists ps, fetch_products file = Ok ps.
Proof.
  unfold fetch_products, try_except, is_Exception.
  destruct (rows <- open_catalog file;; read_rows rows []) as [ps|e].
  - now exists ps.
  - destruct (is_FileNotFoundError e); now exists [].
Qed.

Lemma fetch_products_rows (rows : list csv_row) (ps : list product) (p : product) :
  fetch_products (Some rows) = Ok ps -> In p ps ->
  exists row, In row rows /\ parse_row row = Ok (Some p).
Proof.
  intros Hf Hin.
  unfold fetch_products, try_except, is_Exception, open_catalog, bind in Hf.
  destruct (read_rows rows []) as [ps'|e] eqn:E.
  - injection Hf as <-.
    destruct (read_rows_products _ _ _ E) as (new & -> & Hnew).
    now apply Hnew.
  - destruct (is_FileNotFoundError e); injection Hf as <-; destruct Hin.
Qed.

(** The loop over the rows of a catalog in two parts reads the first part
    and goes on with the second. *)
Lemma read_rows_app (before after : list csv_row) (acc : list product) :
  read_rows (before ++ after) acc
  = (products <- read_rows before acc ;; read_rows after products).
Proof.
  revert acc. induction before as [|row before IH]; intros acc; [reflexivity|].
  simpl. destruct (try_except (parse_row row) row_errors _) as [[p|]|e]; simpl;
    [apply IH | apply IH | reflexivity].
Qed.

(** A skipped row can be taken out of the catalog. *)
Lemma read_rows_skip (before after : list csv_row) (row : csv_row) :
  try_except (parse_row row) row_errors (fun _ => Ok None) = Ok None ->
  read_rows (before ++ row :: after) [] = read_rows (before ++ after) [].
Proof.
  intros Hs. rewrite !read_rows_app.
  destruct (read_rows before []) as [products|e]; [|reflexivity].
  simpl. now rewrite Hs.
Qed.

Lemma catalog_row_product (name url platform threshold : string) (th : Q) :
  name <> "" -> url <> "" ->
  threshold_clean (catalog_row name url platform threshold) <> "" ->
  float (threshold_clean (catalog_row name url platform threshold)) = Ok th ->
  parse_row (catalog_row name url platform threshold)
  = Ok (Some {| p_name := strip name; p_url := strip url;
                p_platform := strip (lower platform); p_threshold := th |}).
Proof.
  intros Hn Hu Hc Hf. unfold parse_row.
  destruct (threshold_clean _) as [|a cleaned]; [contradiction|].
  rewrite Hf. simpl.
  destruct name as [|c name]; [contradiction|].
  destruct url as [|d url]; [contradiction|].
  reflexivity.
Qed.


(** The catalog of the kettle is read as one product. *)
Example example_row_catalog_products :
  fetch_products example_row_catalog = Ok [example_kettle].
Proof. vm_compute. reflexivity. Qed.

(** The catalog with three rows to skip between the widget and the lamp
    is read as the widget and the lamp. *)
Example skipping_catalog_products :
  fetch_products Scraper.skipping_catalog
  = Ok [Scraper.example_widget; Scraper.example_lamp].
Proof. vm_compute. reflexivity. Qed.


End Catalog.

(** ** The tracking run *)

Section Tracking.
Import Py Common Scraper.

Variable Page : Type.
Variable scrape_amazon scrape_flipkart : string -> Page -> option (Q * Q).

Local Abbreviation scrape_product :=
  (Scraper.scrape_product Page scrape_amazon scrape_flipkart).
Local Abbreviation fetched_prices :=
  (Scraper.fetched_prices Page scrape_amazon scrape_flipkart).
Local Abbreviation scrape_of := (Scraper.scrape_of Page scrape_amazon scrape_flipkart).
Local Abbreviation scrapes := (Scraper.scrapes Page scrape_amazon scrape_flipkart).
Local Abbreviation prices_ok := (Scraper.prices_ok Page scrape_amazon scrape_flipkart).
Local Abbreviation product_messages :=
  (Scraper.product_messages Page scrape_amazon scrape_flipkart).
Local Abbreviation track_product :=
  (Scraper.track_product Page scrape_amazon scrape_flipkart).
Local Abbreviation track_loop := (Scraper.track_loop Page scrape_amazon scrape_flipkart).
Local Abbreviation track_prices :=
  (Scraper.track_prices Page scrape_amazon scrape_flipkart).

Lemma track_product_step (page : Page) (l : nat) (p : product) (w : world) :
  prices_ok page p ->
  exists w',
    track_product page l l p w = Done tt w'
    /\ loop_effect l (scrape_of page p) (product_messages page p) w w'.
Proof.
  intros Hok. unfold Scraper.track_product.
  unfold mbind at 1. rewrite scrape_product_eq.
  unfold loop_effect, Scraper.scrape_of, Scraper.product_messages.
  destruct (fetched_prices page p) as [[c o]|] eqn:F.
  - destruct (evaluate_ok p c o (Hok c o F)) as [i Hi]. rewrite Hi.
    apply evaluate_fields in Hi as (Hn & Hu & Hc & Ho & Ht & _ & _).
    assert (Hel : ltb (i_current_price i) (i_original_price i)
                  && leb (i_current_price i) (p_threshold p) = still_eligible i)
      by (unfold still_eligible; now rewrite Ht).
    rewrite Hel. clear Hel.
    unfold appended. simpl flat_map. rewrite app_nil_r.
    unfold observation_of. subst c o.
    destruct (still_eligible i);
      unfold mbind, list_append, print, save_price, now, ret, mbind,
        Db.save_price, printed; simpl;
      (eexists; split; [reflexivity|]); simpl;
      rewrite ?lookup_insert_eq; simpl;
      rewrite map_app, <- ?app_assoc; simpl; repeat split; reflexivity.
  - unfold print, printed. simpl. eexists. split; [reflexivity|]. simpl.
    rewrite !app_nil_r, <- app_assoc. repeat split; reflexivity.
Qed.

Lemma loop_effect_trans (l : nat) (s1 s2 : list (product * info))
      (m1 m2 : list message) (w w1 w' : world) :
  loop_effect l s1 m1 w w1 -> loop_effect l s2 m2 w1 w' ->
  loop_effect l (s1 ++ s2) (m1 ++ m2) w w'.
Proof.
  intros (He1 & Hl1 & Hd1 & Hc1) (He & Hl & Hd & Hc). unfold loop_effect.
  rewrite flat_map_app, map_app.
  rewrite He, He1, Hl, Hl1, Hd, Hd1, Hc, Hc1, <- !app_assoc.
  repeat split; reflexivity.
Qed.

(** The loop never raises on prices that are not negative; it sends no
    report, appends to the list what each scraped product adds, writes
    one observation per scraped product, in order, and prints the
    messages of each product. *)
Lemma track_loop_effect (page : Page) (l : nat) (products : list product) (w : world) :
  Forall (prices_ok page) products ->
  exists w',
    track_loop page l l products w = Done tt w'
    /\ loop_effect l (scrapes page products)
                   (flat_map (product_messages page) products) w w'.
Proof.
  intros Hok. revert w. induction Hok as [|p rest Hp _ IH]; intros w.
  - exists w. unfold loop_effect. simpl. rewrite !app_nil_r.
    repeat split; reflexivity.
  - destruct (track_product_step page l p w Hp) as (w1 & Hstep & Heff).
    destruct (IH w1) as (w' & Hloop & Hrest).
    exists w'. split.
    + simpl. unfold mbind. now rewrite Hstep.
    + unfold Scraper.scrapes. simpl flat_map.
      eapply loop_effect_trans; eassumption.
Qed.

Lemma table_line_of_ok (item : info) : exists line, table_line_of item = Ok line.
Proof.
  unfold table_line_of.
  destruct (gtb (i_original_price item) 0) eqn:E.
  - apply gtb_gt in E. rewrite div_nonzero by lra. simpl. eexists. reflexivity.
  - simpl. eexists. reflexivity.
Qed.

Lemma table_lines_ok (items : list info) : exists lines, table_lines items = Ok lines.
Proof.
  induction items as [|item rest [lines IH]]; simpl; [eexists; reflexivity|].
  destruct (table_line_of_ok item) as [line ->]. rewrite IH. simpl.
  eexists. reflexivity.
Qed.

(** [display_price_table] never raises; it prints one table. *)
Lemma display_price_table_ok (results : list info) (w : world) :
  exists lines, display_price_table results w = Done tt (printed [PriceTable lines] w).
Proof.
  unfold display_price_table, mbind, lift.
  destruct (table_lines_ok (unique_results ∅ results)) as [lines ->].
  exists lines. reflexivity.
Qed.

(** Of what the loop appended, the comprehension keeps the eligible
    dictionaries, each of them twice. *)
Lemma filter_appended (scraped : list (product * info)) :
  List.filter still_eligible (flat_map (fun pi => appended (snd pi)) scraped)
  = twice_eligible scraped.
Proof.
  unfold twice_eligible.
  induction scraped as [|[p i] rest IH]; [reflexivity|].
  simpl flat_map. rewrite List.filter_app, IH. f_equal.
  unfold appended. simpl. destruct (still_eligible i) eqn:E; simpl; now rewrite ?E.
Qed.

Lemma show_results_ok (shown : list info) (w : world) :
  exists msgs,
    match shown with
    | [] => ret tt
    | _ :: _ => display_price_table shown
    end w = Done tt (printed msgs w).
Proof.
  destruct shown as [|i shown].
  - exists []. now rewrite printed_nil.
  - destruct (display_price_table_ok (i :: shown) w) as [lines H].
    now exists [PriceTable lines].
Qed.

Lemma mbind_done {A B : Type} (m : M A) (k : A -> M B) (w w1 : world) (a : A) :
  m w = Done a w1 -> mbind m k w = k a w1.
Proof. intros H. unfold mbind. now rewrite H. Qed.

(** A run on a catalog whose products have prices that are not negative
    never raises; it writes one observation per scraped product, in the
    order of the catalog, and calls [send_report] at most once, with the
    eligible dictionaries, each of them twice. *)
Lemma track_prices_effect (file : catalog) (page : Page) (products : list product)
      (w : world) :
  fetch_products file = Ok products ->
  Forall (prices_ok page) products ->
  exists w',
    track_prices file page w = Done tt w'
    /\ map observation (db w')
       = (map observation (db w) ++ map observation_of (scrapes page products))%list
    /\ emails w' = (emails w ++ batches (scrapes page products))%list
    /\ exists more,
        console w'
        = (console w ++ flat_map (product_messages page) products ++ more)%list.
Proof.
  intros Hfetch Hok. unfold Scraper.track_prices.
  rewrite (mbind_done _ _ w w products) by (unfold lift; now rewrite Hfetch).
  destruct products as [|p rest].
  { eexists. split; [reflexivity|]. simpl. rewrite !app_nil_r.
    repeat split. now exists [NoProductsToTrack]. }
  set (l := fresh (dom (lists w))).
  set (w1 := {| db := db w; clock := clock w; lists := <[l := []]> (lists w);
                console := console w; emails := emails w |}).
  rewrite (mbind_done _ _ w w1 l) by reflexivity.
  destruct (track_loop_effect page l (p :: rest) w1 Hok)
    as (w2 & Hloop & He & Hl & Hd & Hc).
  rewrite (mbind_done _ _ w1 w2 tt) by exact Hloop.
  assert (Hl1 : default [] (lists w1 !! l) = []).
  { unfold w1. simpl. now rewrite lookup_insert_eq. }
  rewrite Hl1, app_nil_l in Hl. clear Hl1.
  rewrite (mbind_done _ _ w2 w2 _) by reflexivity.
  destruct (show_results_ok (default [] (lists w2 !! l)) w2) as [msgs Hshow].
  rewrite (mbind_done _ _ w2 (printed msgs w2) tt) by exact Hshow.
  rewrite (mbind_done _ _ (printed msgs w2) (printed msgs w2)
                      (default [] (lists w2 !! l))) by reflexivity.
  rewrite Hl, filter_appended. unfold batches.
  destruct (twice_eligible (scrapes page (p :: rest))) as [|i batch].
  - eexists. split; [reflexivity|]. simpl.
    rewrite Hd, He, Hc, app_nil_r, <- !app_assoc. repeat split.
    now exists (msgs ++ [SkippingEmail])%list.
  - eexists. split; [reflexivity|]. simpl.
    rewrite Hd, He, Hc, <- !app_assoc. repeat split.
    now exists msgs.
Qed.

Lemma scrapes_app (page : Page) (l1 l2 : list product) :
  scrapes page (l1 ++ l2) = (scrapes page l1 ++ scrapes page l2)%list.
Proof. unfold Scraper.scrapes. apply flat_map_app. Qed.

Lemma scrape_of_failed (page : Page) (p : product) :
  fetched_prices page p = None -> scrape_of page p = [].
Proof. intros H. unfold Scraper.scrape_of. now rewrite H. Qed.

Lemma scrape_of_fetched (page : Page) (p : product) (c o : Q) :
  prices_ok page p -> fetched_prices page p = Some (c, o) ->
  exists i, evaluate p c o = Ok i /\ scrape_of page p = [(p, i)].
Proof.
  intros Hok H. destruct (evaluate_ok p c o (Hok c o H)) as [i Hi].
  exists i. split; [assumption|]. unfold Scraper.scrape_of. now rewrite H, Hi.
Qed.

Lemma scrapes_in (page : Page) (products : list product) (q : product) (i : info) :
  In (q, i) (scrapes page products)
  <-> In q products
      /\ exists c o, fetched_prices page q = Some (c, o) /\ evaluate q c o = Ok i.
Proof.
  unfold Scraper.scrapes. rewrite in_flat_map. split.
  - intros (q' & Hin & H). unfold Scraper.scrape_of in H.
    destruct (fetched_prices page q') as [[c o]|] eqn:F; [|destruct H].
    destruct (evaluate q' c o) as [i'|e] eqn:E; [|destruct H].
    destruct H as [[= -> ->]|[]]. split; [assumption|]. now exists c, o.
  - intros (Hin & c & o & F & E). exists q. split; [assumption|].
    unfold Scraper.scrape_of. rewrite F, E. now left.
Qed.

(** The selected scraper found no price: the URL names Amazon or
    Flipkart, and the scraper of that site returned [None]. *)
Lemma fetched_prices_none (page : Page) (p : product) :
  fetched_prices page p = None
  <-> (contains "amazon" (p_url p) = true /\ scrape_amazon (p_url p) page = None)
      \/ (contains "amazon" (p_url p) = false
          /\ contains "flipkart" (p_url p) = true
          /\ scrape_flipkart (p_url p) page = None).
Proof.
  unfold Scraper.fetched_prices.
  destruct (contains "amazon" (p_url p)); [intuition congruence|].
  destruct (contains "flipkart" (p_url p)); intuition congruence.
Qed.


(** *** Products of a site without a scraper *)

Lemma evaluate_placeholder (p : product) :
  exists i,
    evaluate p ten_e9 ten_e9 = Ok i
    /\ i_current_price i = ten_e9 /\ i_original_price i = ten_e9
    /\ i_discount i = 0 /\ i_send_email i = false
    /\ still_eligible i = false.
Proof.
  unfold evaluate. eexists. split; [reflexivity|]. simpl.
  repeat split; reflexivity.
Qed.

Lemma fetched_prices_placeholder (page : Page) (p : product) :
  contains "amazon" (p_url p) = false ->
  contains "flipkart" (p_url p) = false ->
  fetched_prices page p = Some (ten_e9, ten_e9)
  /\ Scraper.scrape_messages Page scrape_flipkart page p = [].
Proof.
  intros Ha Hf. unfold Scraper.fetched_prices, Scraper.scrape_messages.
  now rewrite Ha, Hf.
Qed.

Lemma twice_eligible_in (scraped : list (product * info)) (i : info) :
  In i (twice_eligible scraped)
  -> still_eligible i = true /\ exists q, In (q, i) scraped.
Proof.
  unfold twice_eligible. rewrite in_flat_map. intros ([q i'] & Hin & H).
  simpl in H. destruct (still_eligible i') eqn:E; [|destruct H].
  assert (i' = i) as -> by (destruct H as [H|[H|[]]]; exact H).
  split; [assumption|]. now exists q.
Qed.

Lemma batches_in (scraped : list (product * info)) (batch : list info) :
  In batch (batches scraped) -> batch = twice_eligible scraped.
Proof.
  unfold batches. destruct (twice_eligible scraped); [intros []|].
  intros [H|[]]. now symmetry.
Qed.


End Tracking.

(** *** Runs on the example catalogs *)

Section Examples.
Import Py Common Scraper.

Local Abbreviation run :=
  (track_prices unit example_amazon example_flipkart).

Lemma example_catalog_products :
  fetch_products example_catalog = Ok [example_widget; example_gadget; example_lamp].
Proof. vm_compute. reflexivity. Qed.

Lemma example_prices_ok :
  Forall (prices_ok unit example_amazon example_flipkart tt)
         [example_widget; example_gadget; example_lamp].
Proof.
  repeat constructor; intros c o H; vm_compute in H;
    try discriminate H; injection H as <- <-; discriminate.
Qed.



(** The run on the example catalog: the widget and the lamp are
    recorded, the gadget is not, and the report of the widget is handed
    to [send_report] twice in one batch. *)
Example example_run :
  exists w',
    run example_catalog tt initial_world = Done tt w'
    /\ map observation (db w')
       = [("Widget", "https://www.amazon.in/widget", "amazon", 90, Some 120, 100);
          ("Lamp", "https://www.amazon.in/lamp", "amazon", 700, Some 700, 600)]
    /\ emails w' = [[widget_info; widget_info]].
Proof.
  eexists. split; [vm_compute; reflexivity|]. split; reflexivity.
Qed.

(** C2. With one product, eligible at 90 against an original price of
    120 and a threshold of 100, [send_report] is called once, with a
    batch that holds the report of the product twice, not once: the one
    list behind [results] and [report_details] received it twice. *)
Theorem eligible_report_is_sent_twice :
  let file :=
    Some [catalog_row "Widget" "https://www.amazon.in/widget" "amazon" "100"] in
  fetch_products file = Ok [example_widget]
  /\ exists w',
      run file tt initial_world = Done tt w'
      /\ List.length (db w') = 1%nat
      /\ emails w' = [[widget_info; widget_info]].
Proof.
  split; [vm_compute; reflexivity|].
  eexists. split; [vm_compute; reflexivity|]. split; reflexivity.
Qed.


Lemma mug_prices_ok :
  Forall (prices_ok unit example_amazon example_flipkart tt) [example_mug].
Proof.
  repeat constructor; intros c o H; vm_compute in H.
  injection H as <- <-. discriminate.
Qed.


End Examples.

(** ** Reading the ledger *)

Section LedgerReads.
Import Py Db.

Lemma insert_by_perm {A : Type} (le : A -> A -> bool) (x : A) (l : list A) :
  Permutation (insert_by le x l) (x :: l).
Proof.
  induction l as [|y l IH]; simpl; [reflexivity|].
  destruct (le x y); [reflexivity|].
  rewrite IH. apply perm_swap.
Qed.

(** [ORDER BY] returns the rows it is given, each once. *)
Lemma order_by_perm {A : Type} (le : A -> A -> bool) (l : list A) :
  Permutation (order_by le l) l.
Proof.
  induction l as [|x l IH]; [reflexivity|].
  unfold order_by in *. simpl. rewrite insert_by_perm. now constructor.
Qed.

Lemma insert_by_date_sorted (x : row) (l : list row) :
  StronglySorted not_older l -> StronglySorted not_older (insert_by date_desc x l).
Proof.
  induction 1 as [|y l Hs IH Hy]; simpl; [repeat constructor|].
  unfold date_desc at 1. destruct (date y <=? date x)%Z eqn:E.
  - apply Z.leb_le in E. constructor; [now constructor|].
    constructor; [exact E|].
    eapply List.Forall_impl; [|exact Hy]. unfold not_older. intros z Hz. lia.
  - apply Z.leb_gt in E. constructor; [exact IH|].
    rewrite List.Forall_forall. intros z Hz.
    apply (Permutation_in _ (insert_by_perm date_desc x l)) in Hz.
    destruct Hz as [<-|Hz]; [unfold not_older; lia|].
    rewrite List.Forall_forall in Hy. now apply Hy.
Qed.

(** [ORDER BY date DESC] returns rows none of which is older than a row
    after it. *)
Lemma order_by_date_sorted (l : list row) :
  StronglySorted not_older (order_by date_desc l).
Proof.
  induction l as [|x l IH]; [constructor|].
  unfold order_by in *. simpl. now apply insert_by_date_sorted.
Qed.

Lemma sorted_app_inv {A : Type} (R : A -> A -> Prop) (l1 l2 : list A) :
  StronglySorted R (l1 ++ l2) ->
  StronglySorted R l1 /\ forall x y, In x l1 -> In y l2 -> R x y.
Proof.
  induction l1 as [|a l1 IH]; simpl; intros H.
  - split; [constructor | intros x y []].
  - apply StronglySorted_inv in H as [Hs Ha].
    destruct (IH Hs) as [Hs1 Hc]. apply List.Forall_app in Ha as [Ha1 Ha2].
    split; [now constructor|].
    intros x y [<-|Hx] Hy; [|now apply Hc].
    rewrite List.Forall_forall in Ha2. now apply Ha2.
Qed.

(** The first rows of sorted rows are sorted, and none of them is older
    than a row left out. *)
Lemma limit_rows_sorted (limit : Z) (l : list row) :
  StronglySorted not_older l ->
  StronglySorted not_older (limit_rows limit l)
  /\ forall r r', In r (limit_rows limit l) -> In r' l ->
                  ~ In r' (limit_rows limit l) -> not_older r r'.
Proof.
  intros Hs. unfold limit_rows. destruct (limit <? 0)%Z.
  - split; [assumption|]. intros r r' _ Hr' Hn. contradiction.
  - rewrite <- (firstn_skipn (Z.to_nat limit) l) in Hs.
    apply sorted_app_inv in Hs as [Hs1 Hc]. split; [assumption|].
    intros r r' Hr Hr' Hn. apply Hc; [assumption|].
    rewrite <- (firstn_skipn (Z.to_nat limit) l) in Hr'.
    apply in_app_or in Hr' as [Hr'|Hr']; [contradiction | assumption].
Qed.

Lemma limit_rows_length {A : Type} (limit : Z) (l : list A) :
  List.length (limit_rows limit l)
  = if (limit <? 0)%Z then List.length l
    else Nat.min (Z.to_nat limit) (List.length l).
Proof.
  unfold limit_rows. destruct (limit <? 0)%Z; [reflexivity|].
  apply length_firstn.
Qed.

Lemma limit_rows_incl {A : Type} (limit : Z) (l : list A) (x : A) :
  In x (limit_rows limit l) -> In x l.
Proof.
  unfold limit_rows. destruct (limit <? 0)%Z; [auto|]. intros H.
  rewrite <- (firstn_skipn (Z.to_nat limit) l). apply in_or_app. now left.
Qed.

(** X1. [get_latest_prices] returns the columns of every row of the table,
    each row once, in an order in which no row is older than a row after
    it; on a table whose dates increase this is the reverse of the
    insertion order. *)
Theorem get_latest_prices_most_recent_first (t : table) :
  (exists rows,
      get_latest_prices t
      = map (fun r => (name r, price r, threshold r, date r)) rows
      /\ Permutation rows t /\ StronglySorted not_older rows)
  /\ (StronglySorted Z.lt (map date t) ->
      get_latest_prices t
      = map (fun r => (name r, price r, threshold r, date r)) (rev t)).
Proof.
  split.
  - exists (order_by date_desc t). split; [reflexivity|].
    split; [apply order_by_perm | apply order_by_date_sorted].
  - intros H. unfold get_latest_prices.
    now rewrite order_by_date_desc_increasing.
Qed.

Lemma get_latest_prices_most_recent_first_witness :
  let t := [widget 1 120 1; gadget 2 450 2; widget 3 90 3] in
  StronglySorted Z.lt (map date t)
  /\ get_latest_prices t
     = [("Widget", 90, 100, 3%Z); ("Gadget", 450, 500, 2%Z); ("Widget", 120, 100, 1%Z)].
Proof.
  intros t.
  assert (H : StronglySorted Z.lt (map date t)) by (simpl; repeat constructor).
  split; [exact H|].
  exact (proj2 (get_latest_prices_most_recent_first t) H).
Defined.

(** X2. [get_price_history] for a product name that is not empty and a limit
    that fits: the rows returned are rows of that product, no row is
    older than a row after it, and no row returned is older than a row
    of the product that is left out. A limit that is not negative bounds
    their number; a negative limit returns every row of the product. A
    product without rows gets the empty list. *)
Theorem get_price_history_of_product (n : string) (limit : Z) (t : table) :
  n <> "" -> fits_integer limit = true ->
  exists rows,
    get_price_history (Some n) limit t = Some rows
    /\ (forall r, In r rows -> In r t /\ name r = n)
    /\ StronglySorted not_older rows
    /\ (forall r r', In r rows -> In r' t -> name r' = n -> ~ In r' rows ->
                     not_older r r')
    /\ ((0 <= limit)%Z ->
        List.length rows
        = Nat.min (Z.to_nat limit) (List.length (with_name n t)))
    /\ ((limit < 0)%Z -> Permutation rows (with_name n t))
    /\ (with_name n t = [] -> rows = []).
Proof.
  intros Hn Hfit. unfold get_price_history. rewrite Hfit.
  destruct n as [|c n']; [contradiction|]. simpl name_given.
  set (n := String c n') in *.
  pose proof (order_by_perm date_desc (with_name n t)) as Hperm.
  destruct (limit_rows_sorted limit _ (order_by_date_sorted (with_name n t)))
    as [Hs Hc].
  eexists. split; [reflexivity|]. split; [|split; [exact Hs|split; [|split; [|split]]]].
  - intros r Hr. apply limit_rows_incl in Hr.
    apply (Permutation_in _ Hperm) in Hr.
    unfold with_name in Hr. apply filter_In in Hr as [Hin Hname].
    split; [assumption | now apply String.eqb_eq].
  - intros r r' Hr Hr' Hname Hnot. apply Hc; [assumption | | assumption].
    apply (Permutation_in _ (Permutation_sym Hperm)).
    unfold with_name. apply filter_In. split; [assumption|].
    now apply String.eqb_eq.
  - intros Hl. rewrite limit_rows_length.
    apply Z.ltb_ge in Hl. rewrite Hl.
    now rewrite (Permutation_length Hperm).
  - intros Hl. unfold limit_rows. apply Z.ltb_lt in Hl. now rewrite Hl.
  - intros He. rewrite He. unfold limit_rows. simpl.
    destruct (limit <? 0)%Z; [reflexivity | now destruct (Z.to_nat limit)].
Qed.

Lemma get_price_history_of_product_witness :
  let t := [widget 1 120 1; gadget 2 450 2; widget 3 90 3; widget 4 95 4] in
  "Widget" <> "" /\ fits_integer 2 = true
  /\ get_price_history (Some "Widget") 2 t = Some [widget 4 95 4; widget 3 90 3]
  /\ exists rows,
      get_price_history (Some "Widget") 2 t = Some rows
      /\ List.length rows = Nat.min (Z.to_nat 2) (List.length (with_name "Widget" t)).
Proof.
  intros t.
  assert (Hn : "Widget" <> "") by discriminate.
  split; [exact Hn|]. split; [reflexivity|]. split; [reflexivity|].
  destruct (get_price_history_of_product "Widget" 2 t Hn eq_refl)
    as (rows & Hrows & _ & _ & _ & Hlen & _).
  exists rows. split; [exact Hrows|]. apply Hlen. discriminate.
Defined.

(** X3. [get_price_history] without a name, or with the empty name, reads
    the rows of all the products: every row returned is a row of the
    table, no row is older than a row after it, and their number is that
    of the table, cut to a limit that is not negative. *)
Theorem get_price_history_of_all (limit : Z) (t : table) :
  fits_integer limit = true ->
  get_price_history (Some "") limit t = get_price_history None limit t
  /\ exists rows,
      get_price_history None limit t = Some rows
      /\ (forall r, In r rows -> In r t)
      /\ StronglySorted not_older rows
      /\ List.length rows
         = (if (limit <? 0)%Z then List.length t
            else Nat.min (Z.to_nat limit) (List.length t)).
Proof.
  intros Hfit. split; [reflexivity|].
  unfold get_price_history. rewrite Hfit. simpl.
  pose proof (order_by_perm date_desc t) as Hperm.
  eexists. split; [reflexivity|]. split; [|split].
  - intros r Hr. apply limit_rows_incl in Hr.
    now apply (Permutation_in _ Hperm).
  - apply limit_rows_sorted, order_by_date_sorted.
  - rewrite limit_rows_length. now rewrite (Permutation_length Hperm).
Qed.

Lemma get_price_history_of_all_witness :
  let t := [widget 1 120 1; gadget 2 450 2; widget 3 90 3] in
  fits_integer 100 = true
  /\ get_price_history (Some "") 100 t = get_price_history None 100 t
  /\ get_price_history None 100 t = Some [widget 3 90 3; gadget 2 450 2; widget 1 120 1].
Proof.
  intros t. split; [reflexivity|].
  split; [exact (proj1 (get_price_history_of_all 100 t eq_refl))|].
  reflexivity.
Defined.

End LedgerReads.

(** ** The summary of the ledger *)

Section SummaryFacts.
Import Py Db.

Lemma max_date_of_bound (l : list Z) :
  l <> [] ->
  exists m, max_date_of l = Some m /\ In m l /\ Forall (fun d => (d <= m)%Z) l.
Proof.
  induction l as [|x l IH]; [contradiction|]. intros _. simpl.
  destruct l as [|y l].
  - exists x. simpl. repeat split; [now left|]. repeat constructor. lia.
  - destruct IH as (m & -> & Hin & Hall); [discriminate|].
    exists (Z.max x m). split; [reflexivity|]. split.
    + destruct (Z.max_spec x m) as [[_ ->]|[_ ->]]; [now right | now left].
    + constructor; [lia|].
      eapply List.Forall_impl; [|exact Hall]. intros d Hd. simpl in Hd. lia.
Qed.

Lemma distinct_in (l : list joined) (j : joined) : In j (distinct l) -> In j l.
Proof.
  induction l as [|x l IH]; simpl; [auto|].
  intros [<-|H]; [now left|]. right. apply IH.
  now apply filter_In in H as [H _].
Qed.

(** A row of the query comes from a row of the table that has the latest
    date of its product. *)
Lemma summary_query_in (t : table) (j : joined) :
  In j (summary_query t) ->
  exists r, In r t /\ is_latest t r = true /\ j = select_columns t r.
Proof.
  unfold summary_query. intros H.
  apply (Permutation_in _ (order_by_perm by_name _)) in H.
  apply distinct_in in H. apply in_map_iff in H as (r & <- & Hr).
  apply filter_In in Hr as [Hin Hl]. now exists r.
Qed.

Lemma is_latest_bound (t : table) (r r' : row) :
  is_latest t r = true -> In r' t -> name r' = name r -> (date r' <= date r)%Z.
Proof.
  unfold is_latest, max_date. intros H Hin Hname.
  assert (Hr' : In (date r') (map date (with_name (name r) t))).
  { apply in_map. unfold with_name. apply filter_In. split; [assumption|].
    now apply String.eqb_eq. }
  destruct (max_date_of_bound (map date (with_name (name r) t)))
    as (m & Hm & _ & Hall).
  { intros E. rewrite E in Hr'. destruct Hr'. }
  rewrite Hm in H. apply Z.eqb_eq in H. rewrite H.
  rewrite List.Forall_forall in Hall. now apply Hall.
Qed.

Lemma find_with_name (Q : row -> bool) (n : string) (t : table) :
  List.find (fun r => Q r && String.eqb (name r) n) t = List.find Q (with_name n t).
Proof.
  induction t as [|r t IH]; [reflexivity|]. unfold with_name in *. simpl.
  destruct (String.eqb (name r) n); simpl.
  - rewrite andb_true_r. destruct (Q r); [reflexivity | exact IH].
  - rewrite andb_false_r. exact IH.
Qed.

Lemma find_ext_in {A : Type} (f g : A -> bool) (l : list A) :
  (forall x, In x l -> f x = g x) -> List.find f l = List.find g l.
Proof.
  induction l as [|x l IH]; intros H; [reflexivity|]. simpl.
  rewrite <- (H x) by now left.
  destruct (f x); [reflexivity|]. apply IH. intros y Hy. apply H. now right.
Qed.

(** The first row of the query for a product is decided by the rows of
    that product alone. *)
Lemma summary_query_find (t : table) (n : string) :
  List.find (fun j => String.eqb (j_name j) n) (summary_query t)
  = latest_of_rows (with_name n t).
Proof.
  unfold summary_query.
  rewrite find_order_by_name, find_distinct, find_map, find_filter.
  simpl. rewrite find_with_name. unfold latest_of_rows.
  rewrite (find_ext_in (is_latest t)
             (fun r => match max_date_of (map date (with_name n t)) with
                       | Some d => (date r =? d)%Z
                       | None => false
                       end)).
  - destruct (List.find _ (with_name n t)) as [r|] eqn:E; [|reflexivity].
    apply find_some in E as [Hin _].
    unfold with_name in Hin. apply filter_In in Hin as [_ Hn].
    apply String.eqb_eq in Hn. simpl. unfold select_columns, select_previous_price.
    now rewrite Hn.
  - intros r Hin. unfold with_name in Hin. apply filter_In in Hin as [_ Hn].
    apply String.eqb_eq in Hn. unfold is_latest, max_date. now rewrite Hn.
Qed.

Lemma latest_of_rows_some (obs : list row) :
  obs <> [] -> exists j, latest_of_rows obs = Some j.
Proof.
  intros H. unfold latest_of_rows.
  destruct (max_date_of_bound (map date obs)) as (m & Hm & Hin & _).
  { destruct obs; [contradiction | discriminate]. }
  rewrite Hm. apply in_map_iff in Hin as (r & Hr & Hin).
  destruct (List.find _ obs) as [r'|] eqn:E; [eexists; reflexivity|].
  apply find_none with (x := r) in E; [|assumption].
  rewrite Hr, Z.eqb_refl in E. discriminate.
Qed.

Lemma not_in_dict (n : string) (d : list (string * summary)) :
  in_dict n d = false -> ~ In n (map fst d).
Proof.
  unfold in_dict. intros H Hin. apply in_map_iff in Hin as (kv & <- & Hin).
  assert (E : existsb (fun kv' => String.eqb (fst kv') (fst kv)) d = true).
  { apply existsb_exists. exists kv. split; [assumption | apply String.eqb_refl]. }
  congruence.
Qed.

(** The loop keeps the keys of the dictionary distinct, and every item it
    adds is built from a row of the query. *)
Lemma summary_loop_keys (rows : list joined) (d d' : list (string * summary)) :
  summary_loop rows d = Ok d' ->
  (List.NoDup (map fst d) -> List.NoDup (map fst d'))
  /\ forall kv, In kv d' ->
                In kv d \/ exists j, In j rows /\ kv = (j_name j, summary_of j).
Proof.
  revert d. induction rows as [|data rest IH]; intros d; simpl.
  - intros [= <-]. split; [auto|]. intros kv H. now left.
  - rewrite summarize_eq. simpl.
    destruct (in_dict (j_name data) d) eqn:E; intros H.
    + destruct (IH _ H) as [Hn Hi]. split; [assumption|].
      intros kv Hkv. destruct (Hi kv Hkv) as [?|(j & Hj & ->)]; [now left|].
      right. exists j. split; [now right | reflexivity].
    + destruct (IH _ H) as [Hn Hi]. split.
      * intros Hd. apply Hn. rewrite map_app. simpl.
        apply List.NoDup_app; [assumption | repeat constructor; intros [] |].
        intros x Hx [<-|[]]. now apply not_in_dict in E.
      * intros kv Hkv. destruct (Hi kv Hkv) as [Hin|(j & Hj & ->)].
        -- apply in_app_or in Hin as [Hin|[<-|[]]]; [now left|].
           right. exists data. split; [now left | reflexivity].
        -- right. exists j. split; [now right | reflexivity].
Qed.

Lemma names_of_items (d : list (string * summary)) :
  Forall key_is_name d -> map s_name (map snd d) = map fst d.
Proof.
  induction 1 as [|kv d Hkv _ IH]; [reflexivity|]. simpl.
  now rewrite IH, Hkv.
Qed.

(** For every table, the summary has one entry per name, and the names
    are those of the products that have a row. *)
Lemma get_product_summary_names (t : table) :
  exists l,
    get_product_summary t = Ok l
    /\ List.NoDup (map s_name l)
    /\ (forall n, In n (map s_name l) <-> with_name n t <> []).
Proof.
  unfold get_product_summary.
  destruct (summary_loop_items (summary_query t) []) as (d & Hd & Hk & Hi).
  destruct (summary_loop_keys _ _ _ Hd) as [Hnodup Hfrom].
  specialize (Hk (List.Forall_nil _)).
  simpl in Hnodup. specialize (Hnodup (List.NoDup_nil _)).
  rewrite Hd. simpl. exists (map snd d). split; [reflexivity|].
  rewrite names_of_items by assumption. split; [assumption|].
  intros n. split.
  - intros Hin. apply in_map_iff in Hin as (kv & <- & Hin).
    destruct (Hfrom kv Hin) as [[]|(j & Hj & ->)].
    apply summary_query_in in Hj as (r & Hr & _ & ->). simpl.
    intros E.
    assert (Hr' : In r (with_name (name r) t)).
    { unfold with_name. apply filter_In. split; [assumption|].
      apply String.eqb_refl. }
    rewrite E in Hr'. destruct Hr'.
  - intros Hne. specialize (Hi n). simpl in Hi.
    rewrite summary_query_find in Hi.
    destruct (latest_of_rows_some _ Hne) as [j Hj]. rewrite Hj in Hi.
    unfold item_of in Hi. apply find_some in Hi as [Hin Hn]. simpl in Hn.
    apply in_map_iff. eexists. split; [|exact Hin].
    simpl. now apply String.eqb_eq.
Qed.

(** X4. For every table, [get_product_summary] returns one entry per
    product that has a row, and no other entry; the current price and
    the date of an entry are those of a row of the product than which
    none is more recent. *)
Theorem summary_has_one_entry_per_product (t : table) :
  exists l,
    get_product_summary t = Ok l
    /\ List.NoDup (map s_name l)
    /\ (forall n, In n (map s_name l) <-> with_name n t <> [])
    /\ (forall e,
          In e l ->
          exists r,
            In r t /\ name r = s_name e
            /\ s_current_price e = price r /\ s_last_updated e = date r
            /\ forall r', In r' t -> name r' = name r -> (date r' <= date r)%Z).
Proof.
  destruct (get_product_summary_names t) as (l & Hl & Hnd & Hnames).
  exists l. split; [assumption|]. split; [assumption|]. split; [assumption|].
  intros e He. unfold get_product_summary in Hl.
  destruct (summary_loop (summary_query t) []) as [d|err] eqn:Hd; [|discriminate].
  simpl in Hl. injection Hl as <-.
  destruct (summary_loop_keys _ _ _ Hd) as [_ Hfrom].
  apply in_map_iff in He as (kv & <- & Hin).
  destruct (Hfrom kv Hin) as [[]|(j & Hj & ->)].
  apply summary_query_in in Hj as (r & Hr & Hlatest & ->). simpl.
  exists r. repeat split; try assumption.
  intros r' Hr' Hname. now apply (is_latest_bound t).
Qed.

(** The entry of a product is decided by the rows of that product. *)
Lemma summary_entry_local (t t' : table) (n : string) :
  with_name n t = with_name n t' ->
  exists l l',
    get_product_summary t = Ok l /\ get_product_summary t' = Ok l'
    /\ entry_of n l = entry_of n l'.
Proof.
  intros H.
  destruct (get_product_summary_entries t) as (l & Hl & He).
  destruct (get_product_summary_entries t') as (l' & Hl' & He').
  exists l, l'. split; [assumption|]. split; [assumption|].
  now rewrite He, He', !summary_query_find, H.
Qed.

Lemma with_name_save_price_other (n u pf : string) (p th : Q) (original : option Q)
      (now : Z) (t : table) (m : string) :
  m <> n -> with_name m (save_price n u pf p th original now t) = with_name m t.
Proof.
  intros Hne. unfold save_price, with_name. rewrite List.filter_app. simpl.
  assert (E : String.eqb n m = false) by (apply String.eqb_neq; congruence).
  rewrite E. apply app_nil_r.
Qed.

Lemma with_name_save_price_same (n u pf : string) (p th : Q) (original : option Q)
      (now : Z) (t : table) :
  exists r,
    with_name n (save_price n u pf p th original now t) = (with_name n t ++ [r])%list
    /\ save_price n u pf p th original now t = (t ++ [r])%list
    /\ name r = n /\ url r = u /\ platform r = pf /\ price r = p
    /\ threshold r = th /\ date r = now
    /\ original_price r
       = Some (match original with
               | Some o => o
               | None => infer_original_price (select_max_price n t) p
               end).
Proof.
  eexists. unfold save_price, with_name. rewrite List.filter_app. simpl.
  rewrite String.eqb_refl. repeat split; reflexivity.
Qed.

(** X5. Saving a price of a product leaves the summary entries of the other
    products as they were. *)
Theorem save_price_keeps_other_entries
        (n u pf : string) (p th : Q) (original : option Q) (now : Z)
        (t : table) (m : string) :
  m <> n ->
  exists l l',
    get_product_summary t = Ok l
    /\ get_product_summary (save_price n u pf p th original now t) = Ok l'
    /\ entry_of m l' = entry_of m l.
Proof.
  intros Hne.
  destruct (summary_entry_local t (save_price n u pf p th original now t) m)
    as (l & l' & Hl & Hl' & He).
  { symmetry. now apply with_name_save_price_other. }
  now exists l, l'.
Qed.

Lemma save_price_keeps_other_entries_witness :
  let t := [widget 1 120 1; gadget 2 450 2] in
  "Gadget" <> "Widget"
  /\ exists l l',
      get_product_summary t = Ok l
      /\ get_product_summary
           (save_price "Widget" "https://www.amazon.in/widget" "amazon" 90 100
                       (Some 120) 3 t) = Ok l'
      /\ entry_of "Gadget" l' = entry_of "Gadget" l.
Proof.
  intros t.
  assert (H : "Gadget" <> "Widget") by discriminate.
  split; [exact H|].
  exact (save_price_keeps_other_entries
           "Widget" "https://www.amazon.in/widget" "amazon" 90 100 (Some 120) 3
           t "Gadget" H).
Defined.

Lemma sorted_snoc (l : list Z) (x : Z) :
  StronglySorted Z.lt l -> Forall (fun d => (d < x)%Z) l ->
  StronglySorted Z.lt (l ++ [x]).
Proof.
  induction 1 as [|a l Hs IH Ha]; intros Hx; simpl; [repeat constructor|].
  apply List.Forall_cons_iff in Hx as [Hax Hx].
  constructor; [now apply IH|].
  apply List.Forall_app. split; [assumption | now repeat constructor].
Qed.

(** X6. After [save_price] of a product, at a date later than those of its
    rows, the summary entry of the product shows what was saved: its
    name, URL, platform, threshold, date and price; the original price
    given, or the price when the original price given is 0; and, as the
    previous price, the price of the row that was the latest before. *)
Theorem save_price_then_summary
        (n u pf : string) (p th o : Q) (now : Z) (t : table) :
  StronglySorted Z.lt (map date (with_name n t)) ->
  Forall (fun r => (date r < now)%Z) (with_name n t) ->
  exists l e,
    get_product_summary (save_price n u pf p th (Some o) now t) = Ok l
    /\ entry_of n l = Some e
    /\ s_name e = n /\ s_url e = u /\ s_platform e = pf /\ s_threshold e = th
    /\ s_last_updated e = now /\ s_current_price e = p
    /\ s_original_price e = (if truthy o then o else p)
    /\ s_previous_price e
       = match rev (with_name n t) with
         | r :: _ => Some (price r)
         | [] => None
         end.
Proof.
  intros Hs Hlt.
  destruct (with_name_save_price_same n u pf p th (Some o) now t)
    as (r & Hw & Hsave & Hn & Hu & Hpf & Hp & Hth & Hd & Ho).
  rewrite Hsave in *.
  destruct (summary_entry (t ++ [r])%list n (with_name n t) r Hw)
    as (l & e & Hl & He & Heq & Hc & Hprev).
  { rewrite Hw, map_app. simpl. apply sorted_snoc; [assumption|].
    rewrite List.Forall_map. rewrite Hd. exact Hlt. }
  exists l, e. split; [assumption|]. split; [assumption|].
  assert (Hfields :
            s_name e = name r /\ s_url e = url r /\ s_platform e = platform r
            /\ s_threshold e = threshold r /\ s_last_updated e = date r
            /\ s_original_price e
               = original_or_current (original_price r) (price r)).
  { rewrite Heq. simpl. repeat split; reflexivity. }
  destruct Hfields as (-> & -> & -> & -> & -> & ->).
  rewrite Hc, Ho, Hp. repeat split; assumption.
Qed.

Lemma save_price_then_summary_witness :
  let t := [widget 1 120 1; gadget 2 450 2] in
  StronglySorted Z.lt (map date (with_name "Widget" t))
  /\ Forall (fun r => (date r < 3)%Z) (with_name "Widget" t)
  /\ exists l e,
      get_product_summary
        (save_price "Widget" "https://www.amazon.in/widget" "amazon" 90 100
                    (Some 120) 3 t) = Ok l
      /\ entry_of "Widget" l = Some e
      /\ s_current_price e = 90 /\ s_previous_price e = Some 120.
Proof.
  intros t.
  assert (Hs : StronglySorted Z.lt (map date (with_name "Widget" t)))
    by (simpl; repeat constructor).
  assert (Hlt : Forall (fun r => (date r < 3)%Z) (with_name "Widget" t))
    by (simpl; repeat constructor).
  split; [exact Hs|]. split; [exact Hlt|].
  destruct (save_price_then_summary
              "Widget" "https://www.amazon.in/widget" "amazon" 90 100 120 3 t
              Hs Hlt)
    as (l & e & Hl & He & _ & _ & _ & _ & _ & Hc & _ & Hp).
  exists l, e. repeat split; assumption.
Defined.

Lemma infer_original_price_ge (m : option Q) (p : Q) :
  p <= infer_original_price m p.
Proof.
  unfold infer_original_price. destruct m as [m|]; [|apply Qle_refl].
  destruct (truthy m && gtb m p) eqn:E; [|apply Qle_refl].
  apply andb_true_iff in E as [_ E]. apply gtb_gt in E. now apply Qlt_le_weak.
Qed.

Lemma infer_original_price_in (prior : list Q) (p : Q) :
  In (infer_original_price (max_of prior) p) (p :: prior).
Proof.
  unfold infer_original_price. destruct (max_of prior) as [m|] eqn:E; [|now left].
  destruct (truthy m && gtb m p); [|now left].
  right. now apply max_of_some in E as [E _].
Qed.

(** X7. The original price that [save_price] infers is never below the price
    saved, and, over two saves in a row of a product without an original
    price, the second of prices that are not negative, it does not
    decrease. *)
Theorem inferred_original_price_is_monotone
        (n u pf u' pf' : string) (p th p' th' : Q) (now now' : Z) (t : table) :
  0 <= p' ->
  exists r r' o o',
    save_price n u pf p th None now t = (t ++ [r])%list
    /\ save_price n u' pf' p' th' None now' (t ++ [r])%list
       = ((t ++ [r]) ++ [r'])%list
    /\ original_price r = Some o /\ original_price r' = Some o'
    /\ price r <= o /\ price r' <= o' /\ o <= o'.
Proof.
  intros Hp'.
  destruct (with_name_save_price_same n u pf p th None now t)
    as (r & Hw & Hsave & _ & _ & _ & Hp & _ & _ & Ho).
  destruct (with_name_save_price_same n u' pf' p' th' None now' (t ++ [r])%list)
    as (r' & _ & Hsave' & _ & _ & _ & Hpr' & _ & _ & Ho').
  exists r, r'. eexists. eexists.
  split; [exact Hsave|]. split; [exact Hsave'|].
  split; [exact Ho|]. split; [exact Ho'|].
  rewrite Hp, Hpr'.
  split; [apply infer_original_price_ge|]. split; [apply infer_original_price_ge|].
  unfold select_max_price. rewrite <- Hsave, Hw, map_app. simpl. rewrite Hp.
  destruct (infer_original_price_max (map price (with_name n t) ++ [p]) p' Hp')
    as (_ & Hall & _).
  apply List.Forall_cons_iff in Hall as [_ Hall].
  rewrite List.Forall_forall in Hall. apply Hall.
  pose proof (infer_original_price_in (map price (with_name n t)) p) as Hin.
  apply in_or_app. destruct Hin as [<-|Hin]; [right; now left | now left].
Qed.

Lemma inferred_original_price_is_monotone_witness :
  let t := [widget 1 120 1] in
  0 <= 95
  /\ exists r r' o o',
      save_price "Widget" "https://www.amazon.in/widget" "amazon" 150 100 None 2 t
      = (t ++ [r])%list
      /\ save_price "Widget" "https://www.amazon.in/widget" "amazon" 95 100 None 3
                    (t ++ [r])%list
         = ((t ++ [r]) ++ [r'])%list
      /\ original_price r = Some o /\ original_price r' = Some o'
      /\ price r <= o /\ price r' <= o' /\ o <= o'.
Proof.
  intros t. split; [discriminate|].
  exact (inferred_original_price_is_monotone
           "Widget" "https://www.amazon.in/widget" "amazon"
           "https://www.amazon.in/widget" "amazon" 150 100 95 100 2 3 t
           ltac:(discriminate)).
Defined.

End SummaryFacts.

(** ** The dictionary of a scraped product *)

Section ScrapedProduct.
Import Py Common Scraper.

Lemma evaluate_status (product : product) (current original : Q) (i : info) :
  evaluate product current original = Ok i ->
  i_status i
  = status_of (send_email_of current original (p_threshold product)) current
              (p_threshold product).
Proof.
  unfold evaluate. destruct (discount_of original current); simpl; [|discriminate].
  now intros [= <-].
Qed.

(** X8. The status of a scraped product is "threshold and discount met" when
    the price is below the original one and at most the threshold;
    "above threshold", by the price minus the threshold, a subtraction
    of floats, when the price exceeds the threshold, discount or not;
    and "no discount" otherwise. *)
Theorem scrape_status_rule
        (Page : Type) (scrape_amazon scrape_flipkart : string -> Page -> option (Q * Q))
        (page : Page) (product : product) (w w' : world) (i : info) :
  scrape_product Page scrape_amazon scrape_flipkart page product w
  = Done (Some i) w' ->
  let c := i_current_price i in
  let o := i_original_price i in
  let th := p_threshold product in
  (i_status i = ThresholdAndDiscountMet <-> i_send_email i = true)
  /\ (c < o -> c <= th -> i_status i = ThresholdAndDiscountMet)
  /\ (th < c -> i_status i = AboveThresholdBy (sub c th))
  /\ (o <= c -> c <= th -> i_status i = NoEmailNoDiscount).
Proof.
  intros H c o th.
  apply scrape_product_evaluated in H as (c' & o' & E).
  pose proof (evaluate_status _ _ _ _ E) as Hs.
  apply evaluate_fields in E as (_ & _ & Hc & Ho & _ & _ & He).
  subst c o th. rewrite Hc, Ho, Hs, He. clear Hs He Hc Ho.
  unfold status_of. split; [|split; [|split]].
  - destruct (send_email_of c' o' (p_threshold product)); [tauto|].
    destruct (gtb c' (p_threshold product)); split; discriminate.
  - intros H1 H2.
    now rewrite (proj2 (send_email_of_true c' o' (p_threshold product)) (conj H1 H2)).
  - intros H1.
    rewrite (proj2 (send_email_of_false c' o' (p_threshold product)))
      by (now right).
    now rewrite (proj2 (gtb_gt c' (p_threshold product)) H1).
  - intros H1 H2.
    rewrite (proj2 (send_email_of_false c' o' (p_threshold product)))
      by (now left).
    now rewrite (proj2 (gtb_le c' (p_threshold product)) H2).
Qed.

Lemma scrape_status_rule_witness :
  exists i w',
    scrape_product unit example_amazon example_flipkart tt example_lamp initial_world
    = Done (Some i) w'
    /\ i_status i = AboveThresholdBy (700 - 600).
Proof.
  eexists. eexists. split; [reflexivity|].
  apply (scrape_status_rule unit example_amazon example_flipkart tt example_lamp
                            initial_world _ _ eq_refl).
  reflexivity.
Defined.

(** X9. For an original price that is a float and a current price that
    is not negative, the discount of [scrape_product] lies between 0 and
    100. *)
Theorem discount_is_a_percentage (original current : Q) :
  is_float original -> 0 <= current ->
  exists d,
    discount_of original current = Ok d /\ 0 <= d /\ d <= 100.
Proof.
  intros Ho Hc. destruct (Qlt_le_dec current original) as [Hlt|Hle].
  - eexists. split; [apply discount_of_positive; [lra | assumption]|].
    apply (percent_bounds original current Ho Hc Hlt).
  - exists 0. split; [now apply discount_of_zero|].
    split; [apply Qle_refl | discriminate].
Qed.

(** The discount of 1 against 3 is 66.67 percent. *)
Lemma discount_is_a_percentage_witness :
  is_float 3 /\ 0 <= 1
  /\ discount_of 3 1 = Ok (rnd (6667 # 100))
  /\ exists d, discount_of 3 1 = Ok d /\ 0 <= d /\ d <= 100.
Proof.
  assert (H3 : is_float 3) by (split; vm_compute; reflexivity).
  split; [exact H3|]. split; [discriminate|].
  split; [vm_compute; reflexivity|].
  exact (discount_is_a_percentage 3 1 H3 ltac:(discriminate)).
Defined.

(** X10. For a finite original price, the table of [display_price_table]
    shows the discount of the dictionary when the price is between 0
    and the original price; when the price exceeds an original price
    above 0, the dictionary has the discount 0 and the table the
    rounded, negative or null, value of the formula. *)
Theorem table_discount_of_scraped (product : product) (current original : Q) (i : info) :
  finite original = true ->
  evaluate product current original = Ok i ->
  exists line,
    table_line_of i = Ok line
    /\ t_name line = p_name product /\ t_current line = current
    /\ t_desired line = p_threshold product
    /\ (0 <= current -> current <= original -> t_discount line == i_discount i)
    /\ (0 < original -> original < current ->
        i_discount i = 0
        /\ t_discount line
           = round2 (mul (quot (sub original current) original) 100)
        /\ t_discount line <= 0).
Proof.
  intros Fo E. destruct (table_line_of_ok i) as [line Hline].
  exists line. split; [assumption|].
  apply evaluate_fields in E as (Hn & _ & Hc & Ho & Ht & Hd & _).
  unfold table_line_of in Hline. rewrite Hc, Ho, Hn, Ht in Hline.
  destruct (gtb original 0) eqn:G.
  - apply gtb_gt in G. rewrite div_nonzero in Hline by lra. simpl in Hline.
    injection Hline as <-. simpl.
    split; [reflexivity|]. split; [reflexivity|]. split; [reflexivity|]. split.
    + intros H0 Hle. destruct (Qlt_le_dec current original) as [Hlt|Hge].
      * rewrite discount_of_positive in Hd by (lra || assumption).
        injection Hd as <-. reflexivity.
      * rewrite discount_of_zero in Hd by assumption. injection Hd as <-.
        assert (Heq : original == current) by lra.
        assert (Fc : finite current = true).
        { apply (finite_between current original); assumption. }
        apply round2_zero, mul_100_zero, quot_zero.
        now apply sub_zero.
    + intros Hpos Hgt. split; [|split; [reflexivity|]].
      * rewrite discount_of_zero in Hd by lra. now injection Hd.
      * apply round2_nonpos, mul_100_nonpos, quot_nonpos; [|assumption].
        now apply sub_neg.
  - apply gtb_le in G. simpl in Hline. injection Hline as <-. simpl.
    split; [reflexivity|]. split; [reflexivity|]. split; [reflexivity|]. split.
    + intros H0 Hle. rewrite discount_of_zero in Hd by lra.
      injection Hd as <-. reflexivity.
    + intros Hpos. lra.
Qed.

(** Against an original price of 160, the price 253 is shown with the
    discount -58.13, and has the discount 0 in its dictionary. *)
Lemma table_discount_of_scraped_witness :
  finite 160 = true
  /\ evaluate example_lamp 253 160
     = Ok {| i_name := "Lamp"; i_url := "https://www.amazon.in/lamp";
             i_current_price := 253; i_original_price := 160; i_discount := 0;
             i_threshold := 600; i_status := NoEmailNoDiscount;
             i_send_email := false |}
  /\ exists line,
      table_line_of
        {| i_name := "Lamp"; i_url := "https://www.amazon.in/lamp";
           i_current_price := 253; i_original_price := 160; i_discount := 0;
           i_threshold := 600; i_status := NoEmailNoDiscount;
           i_send_email := false |} = Ok line
      /\ t_discount line = rnd (-5813 # 100).
Proof.
  assert (F : finite 160 = true) by (vm_compute; reflexivity).
  split; [exact F|]. split; [vm_compute; reflexivity|].
  destruct (table_discount_of_scraped example_lamp 253 160 _ F eq_refl)
    as (line & Hline & _ & _ & _ & _ & H).
  exists line. split; [exact Hline|].
  destruct H as (_ & H & _); [reflexivity | reflexivity|].
  rewrite H. vm_compute. reflexivity.
Defined.

End ScrapedProduct.

(** ** More on the tracking run *)

Section RunFacts.
Import Py Common Scraper.

Variable Page : Type.
Variable scrape_amazon scrape_flipkart : string -> Page -> option (Q * Q).

Local Abbreviation scrape_product :=
  (Scraper.scrape_product Page scrape_amazon scrape_flipkart).
Local Abbreviation fetched_prices :=
  (Scraper.fetched_prices Page scrape_amazon scrape_flipkart).
Local Abbreviation scrapes := (Scraper.scrapes Page scrape_amazon scrape_flipkart).
Local Abbreviation prices_ok := (Scraper.prices_ok Page scrape_amazon scrape_flipkart).
Local Abbreviation track_product :=
  (Scraper.track_product Page scrape_amazon scrape_flipkart).
Local Abbreviation track_loop := (Scraper.track_loop Page scrape_amazon scrape_flipkart).
Local Abbreviation track_prices :=
  (Scraper.track_prices Page scrape_amazon scrape_flipkart).
Local Abbreviation written_for :=
  (Scraper.written_for Page scrape_amazon scrape_flipkart).

Lemma twice_eligible_nil (scraped : list (product * info)) :
  twice_eligible scraped = []
  <-> forall q i, In (q, i) scraped -> still_eligible i = false.
Proof.
  unfold twice_eligible. induction scraped as [|[q i] rest IH]; simpl.
  - split; [intros _ q i [] | reflexivity].
  - destruct (still_eligible i) eqn:E; simpl.
    + split; [discriminate|]. intros H. specialize (H q i (or_introl eq_refl)).
      congruence.
    + rewrite IH. split.
      * intros H q' i' [[= <- <-]|Hin]; [assumption | now apply (H q')].
      * intros H q' i' Hin. apply (H q'). now right.
Qed.


Lemma track_product_appends (page : Page) (l l' : nat) (p : product) (w : world) :
  exists new,
    db (final_world (track_product page l l' p w)) = (db w ++ new)%list
    /\ Forall (written_for page [p]) new.
Proof.
  unfold Scraper.track_product. unfold mbind at 1.
  rewrite scrape_product_eq.
  destruct (fetched_prices page p) as [[c o]|] eqn:F.
  - destruct (evaluate p c o) as [i|e] eqn:E.
    + apply evaluate_fields in E as (_ & _ & Hc & Ho & _).
      eexists.
      destruct (ltb (i_current_price i) (i_original_price i)
                && leb (i_current_price i) (p_threshold p));
        unfold mbind, list_append, print, save_price, now, ret, mbind,
          Db.save_price, printed; simpl;
        (split; [reflexivity|]);
        (constructor; [|constructor]);
        exists p, o; simpl; rewrite Hc, Ho;
        repeat split; (assumption || now left).
    + exists []. simpl. rewrite app_nil_r. split; [reflexivity | constructor].
  - exists []. unfold print, printed. simpl. rewrite app_nil_r.
    split; [reflexivity | constructor].
Qed.

Lemma written_for_incl (page : Page) (l1 l2 : list product) (r : Db.row) :
  incl l1 l2 -> written_for page l1 r -> written_for page l2 r.
Proof.
  intros Hincl (q & o & Hq & H). exists q, o. split; [now apply Hincl | exact H].
Qed.

Lemma track_loop_appends (page : Page) (l l' : nat) (products : list product)
      (w : world) :
  exists new,
    db (final_world (track_loop page l l' products w)) = (db w ++ new)%list
    /\ Forall (written_for page products) new.
Proof.
  revert w. induction products as [|p rest IH]; intros w.
  - exists []. simpl. rewrite app_nil_r. split; [reflexivity | constructor].
  - simpl. unfold mbind.
    destruct (track_product_appends page l l' p w) as (new1 & H1 & F1).
    assert (F1' : Forall (written_for page (p :: rest)) new1).
    { eapply List.Forall_impl; [|exact F1]. intros r.
      apply written_for_incl. intros x [<-|[]]. now left. }
    destruct (track_product page l l' p w) as [[] w1|e w1]; simpl in H1.
    + destruct (IH w1) as (new2 & H2 & F2).
      exists (new1 ++ new2)%list. rewrite H2, H1, app_assoc.
      split; [reflexivity|]. apply List.Forall_app. split; [assumption|].
      eapply List.Forall_impl; [|exact F2]. intros r.
      apply written_for_incl. intros x Hx. now right.
    + exists new1. simpl. split; assumption.
Qed.

(** X12. Whether it completes or raises, a run keeps the rows of the table as
    they are, in place, and adds rows after them only: one per product
    it saved, with the name, URL, platform and threshold of a product of
    the catalog, and the two prices fetched for it. *)
Theorem run_only_appends_rows (file : catalog) (page : Page)
        (products : list product) (w : world) :
  fetch_products file = Ok products ->
  exists new,
    db (final_world (track_prices file page w)) = (db w ++ new)%list
    /\ Forall (written_for page products) new.
Proof.
  intros Hfetch. unfold Scraper.track_prices.
  rewrite (mbind_done _ _ w w products) by (unfold lift; now rewrite Hfetch).
  destruct products as [|p rest].
  { exists []. simpl. rewrite app_nil_r. split; [reflexivity | constructor]. }
  set (l := fresh (dom (lists w))).
  set (w1 := {| db := db w; clock := clock w; lists := <[l := []]> (lists w);
                console := console w; emails := emails w |}).
  rewrite (mbind_done _ _ w w1 l) by reflexivity.
  destruct (track_loop_appends page l l (p :: rest) w1) as (new & Hnew & Hall).
  exists new. split; [|assumption].
  unfold mbind at 1.
  destruct (track_loop page l l (p :: rest) w1) as [[] w2|e w2];
    simpl in Hnew; [|exact Hnew].
  rewrite (mbind_done _ _ w2 w2 _) by reflexivity.
  destruct (show_results_ok (default [] (lists w2 !! l)) w2) as [msgs Hshow].
  rewrite (mbind_done _ _ w2 (printed msgs w2) tt) by exact Hshow.
  rewrite (mbind_done _ _ (printed msgs w2) (printed msgs w2)
                      (default [] (lists w2 !! l))) by reflexivity.
  destruct (List.filter still_eligible (default [] (lists w2 !! l)));
    simpl; exact Hnew.
Qed.

Lemma track_loop_app (page : Page) (l l' : nat) (l1 l2 : list product) (w : world) :
  track_loop page l l' (l1 ++ l2) w
  = match track_loop page l l' l1 w with
    | Done _ w1 => track_loop page l l' l2 w1
    | Threw e w1 => Threw e w1
    end.
Proof.
  revert w. induction l1 as [|p l1 IH]; intros w; [reflexivity|].
  simpl. unfold mbind.
  destruct (track_product page l l' p w) as [[] w1|e w1]; [apply IH | reflexivity].
Qed.


End RunFacts.

(** ** The price table *)

Section PriceTable.
Import Py Common Scraper.

Lemma not_seen_after (a n : string) (seen : gset string) :
  n ∉ ({[a]} ∪ seen : gset string) <-> n <> a /\ n ∉ seen.
Proof.
  rewrite not_elem_of_union, not_elem_of_singleton. tauto.
Qed.

Lemma unique_results_names (seen : gset string) (results : list info) :
  List.NoDup (map i_name (unique_results seen results))
  /\ forall n,
      In n (map i_name (unique_results seen results))
      <-> In n (map i_name results) /\ n ∉ seen.
Proof.
  revert seen. induction results as [|x rest IH]; intros seen; simpl.
  - split; [constructor|]. intros n. tauto.
  - destruct (decide (i_name x ∈ seen)) as [Hin|Hnin].
    + destruct (IH seen) as [Hnd Hiff]. split; [assumption|].
      intros n. rewrite Hiff. split; [tauto|].
      intros [[<-|H] Hn]; [contradiction | tauto].
    + destruct (IH ({[i_name x]} ∪ seen)) as [Hnd Hiff]. simpl. split.
      * constructor; [|assumption]. rewrite Hiff, not_seen_after.
        intros [_ [H _]]. now apply H.
      * intros n. rewrite Hiff, not_seen_after. split.
        -- intros [<-|[H [_ Hn]]]; tauto.
        -- intros [[<-|H] Hn]; [tauto|].
           destruct (string_dec (i_name x) n) as [<-|Hne]; [tauto|].
           right. split; [assumption|]. split; [congruence | assumption].
Qed.

(** A result kept is the first of the results with its name. *)
Lemma unique_results_first (seen : gset string) (results : list info) (item : info) :
  In item (unique_results seen results) ->
  List.find (fun x => String.eqb (i_name x) (i_name item)) results = Some item.
Proof.
  revert seen. induction results as [|x rest IH]; intros seen; simpl; [intros []|].
  destruct (decide (i_name x ∈ seen)) as [Hin|Hnin].
  - intros H. pose proof (proj2 (unique_results_names seen rest)) as Hiff.
    assert (Hn : i_name item ∉ seen).
    { apply (Hiff (i_name item)). now apply in_map. }
    assert (E : String.eqb (i_name x) (i_name item) = false).
    { apply String.eqb_neq. intros Heq. rewrite Heq in Hin. contradiction. }
    rewrite E. now apply (IH seen).
  - intros [<-|H]; [now rewrite String.eqb_refl|].
    pose proof (proj2 (unique_results_names ({[i_name x]} ∪ seen) rest)) as Hiff.
    assert (Hn : i_name item ∉ ({[i_name x]} ∪ seen : gset string)).
    { apply (Hiff (i_name item)). now apply in_map. }
    apply not_seen_after in Hn as [Hne _].
    assert (E : String.eqb (i_name x) (i_name item) = false).
    { apply String.eqb_neq. congruence. }
    rewrite E. now apply (IH ({[i_name x]} ∪ seen)).
Qed.

Lemma table_line_of_fields (item : info) (line : table_line) :
  table_line_of item = Ok line ->
  t_name line = i_name item /\ t_current line = i_current_price item
  /\ t_desired line = i_threshold item.
Proof.
  unfold table_line_of.
  destruct (if gtb (i_original_price item) 0 then _ else _) as [d|e]; simpl;
    [|discriminate].
  intros [= <-]. simpl. repeat split; reflexivity.
Qed.

Lemma table_lines_each (items : list info) (lines : list table_line) :
  table_lines items = Ok lines ->
  Forall2 (fun item line => table_line_of item = Ok line) items lines.
Proof.
  revert lines. induction items as [|item rest IH]; intros lines; simpl.
  - intros [= <-]. constructor.
  - destruct (table_line_of item) as [line|e] eqn:E; simpl; [|discriminate].
    destruct (table_lines rest) as [lines'|e]; simpl; [|discriminate].
    intros [= <-]. constructor; [assumption | now apply IH].
Qed.

Lemma table_lines_names (items : list info) (lines : list table_line) :
  Forall2 (fun item line => table_line_of item = Ok line) items lines ->
  map t_name lines = map i_name items.
Proof.
  induction 1 as [|item line items lines H _ IH]; [reflexivity|].
  simpl. apply table_line_of_fields in H as (-> & _). now rewrite IH.
Qed.

Lemma table_lines_item (items : list info) (lines : list table_line)
      (line : table_line) :
  Forall2 (fun item line => table_line_of item = Ok line) items lines ->
  In line lines ->
  exists item, In item items /\ table_line_of item = Ok line.
Proof.
  induction 1 as [|item line' items lines H _ IH]; [intros []|].
  intros [<-|Hline].
  - exists item. split; [now left | assumption].
  - destruct (IH Hline) as (item' & Hin & Ht).
    exists item'. split; [now right | assumption].
Qed.


End PriceTable.

(** ** More on the product catalog *)

Section CatalogFacts.
Import Py Common Scraper.

(** *** Strings *)

Lemma lstrip_idempotent (s : string) : lstrip (lstrip s) = lstrip s.
Proof.
  induction s as [|c s IH]; [reflexivity|]. simpl.
  destruct (is_space c) eqn:E; [exact IH|]. simpl. now rewrite E.
Qed.

Lemma rstrip_idempotent (s : string) : rstrip (rstrip s) = rstrip s.
Proof.
  induction s as [|c s IH]; [reflexivity|]. simpl.
  destruct (rstrip s) as [|a r] eqn:E.
  - destruct (is_space c) eqn:Ec; [reflexivity|]. simpl. now rewrite Ec.
  - change (rstrip (String c (String a r))) with
      (match rstrip (String a r) with
       | EmptyString => if is_space c then EmptyString else String c EmptyString
       | r' => String c r'
       end).
    now rewrite IH.
Qed.

Lemma lstrip_rstrip (s : string) : lstrip (rstrip s) = rstrip (lstrip s).
Proof.
  induction s as [|c s IH]; [reflexivity|]. simpl.
  destruct (is_space c) eqn:Ec.
  - destruct (rstrip s) as [|a r] eqn:E.
    + rewrite <- IH. reflexivity.
    + rewrite <- IH. simpl. now rewrite Ec.
  - simpl. destruct (rstrip s) as [|a r]; simpl; now rewrite Ec.
Qed.

(** [strip] leaves nothing for a second [strip] to remove. *)
Lemma strip_idempotent (s : string) : strip (strip s) = strip s.
Proof.
  unfold strip.
  now rewrite lstrip_rstrip, lstrip_idempotent, rstrip_idempotent.
Qed.

Lemma is_space_lower_char (c : ascii) : is_space (lower_char c) = is_space c.
Proof. destruct c as [[] [] [] [] [] [] [] []]; reflexivity. Qed.

Lemma lower_char_idempotent (c : ascii) : lower_char (lower_char c) = lower_char c.
Proof. destruct c as [[] [] [] [] [] [] [] []]; reflexivity. Qed.

Lemma lower_idempotent (s : string) : lower (lower s) = lower s.
Proof.
  induction s as [|c s IH]; [reflexivity|]. simpl.
  now rewrite lower_char_idempotent, IH.
Qed.

Lemma lower_lstrip (s : string) : lower (lstrip s) = lstrip (lower s).
Proof.
  induction s as [|c s IH]; [reflexivity|]. simpl.
  rewrite is_space_lower_char. destruct (is_space c); [exact IH | reflexivity].
Qed.

Lemma lower_rstrip (s : string) : lower (rstrip s) = rstrip (lower s).
Proof.
  induction s as [|c s IH]; [reflexivity|]. simpl.
  rewrite <- IH, is_space_lower_char.
  destruct (rstrip s) as [|a r]; simpl; [|reflexivity].
  destruct (is_space c); reflexivity.
Qed.

Lemma lower_strip (s : string) : lower (strip s) = strip (lower s).
Proof. unfold strip. now rewrite lower_rstrip, lower_lstrip. Qed.

Lemma digits_value_nonneg (s : string) (acc n : Z) :
  (0 <= acc)%Z -> digits_value acc s = Some n -> (0 <= n)%Z.
Proof.
  revert acc. induction s as [|c s IH]; intros acc Hacc; simpl.
  - now intros [= <-].
  - destruct (is_digit c); [|discriminate]. apply IH. lia.
Qed.

Lemma float_nonneg (s : string) (q : Q) : float s = Ok q -> 0 <= q.
Proof.
  unfold float. destruct (split_dot s) as [ip fo].
  destruct (String.length _); [discriminate|].
  destruct (digits_value 0 _) as [z|] eqn:E; [|discriminate].
  intros [= <-]. apply digits_value_nonneg in E; [|lia].
  apply rnd_nonneg. unfold Qle. simpl. lia.
Qed.

(** *** Rows *)

Lemma float_raises (s : string) (e : exn) : float s = Raise e -> e = ValueError.
Proof.
  unfold float. destruct (split_dot s) as [ip fo].
  destruct (String.length _); [now intros [= <-]|].
  destruct (digits_value 0 _); [discriminate | now intros [= <-]].
Qed.

(** What [parse_row] does with a row, by the threshold, the name, the
    URL and the platform of the row. *)
Lemma parse_row_eq (row : csv_row) :
  parse_row row
  = match threshold_clean row with
    | EmptyString => Ok None
    | String a cleaned =>
        match float (String a cleaned) with
        | Raise e => Raise e
        | Ok th =>
            match row !! "name", row !! "url" with
            | Some (PyStr (String a1 nm)), Some (PyStr (String a2 u)) =>
                match get_or_empty row "platform" with
                | PyNone => Raise AttributeError
                | PyStr pf =>
                    Ok (Some {| p_name := strip (String a1 nm);
                                p_url := strip (String a2 u);
                                p_platform := strip (lower pf);
                                p_threshold := th |})
                end
            | _, _ => Ok None
            end
        end
    end.
Proof.
  unfold parse_row.
  destruct (threshold_clean row) as [|a cleaned]; [reflexivity|].
  destruct (float (String a cleaned)) as [th|e]; simpl; [|reflexivity].
  unfold get, getitem.
  destruct (row !! "name") as [[|[|a1 nm]]|]; simpl; try reflexivity.
  destruct (row !! "url") as [[|[|a2 u]]|]; simpl; try reflexivity.
  destruct (get_or_empty row "platform"); reflexivity.
Qed.

(** [parse_row] lets an exception out of the loop exactly for a row with
    a valid threshold, a name and a URL, whose platform is [None]. *)
Lemma parse_row_uncaught (row : csv_row) (e : exn) :
  parse_row row = Raise e -> row_errors e = false ->
  e = AttributeError /\ platform_is_none row
  /\ field_truthy (get row "name") = true /\ field_truthy (get row "url") = true
  /\ exists th, float (threshold_clean row) = Ok th.
Proof.
  rewrite parse_row_eq. unfold get, platform_is_none, get_or_empty.
  destruct (threshold_clean row) as [|a cleaned]; [discriminate|].
  destruct (float (String a cleaned)) as [th|e'] eqn:Ef.
  - destruct (row !! "name") as [[|[|a1 nm]]|]; try discriminate.
    destruct (row !! "url") as [[|[|a2 u]]|]; try discriminate.
    destruct (row !! "platform") as [[|pf]|]; try discriminate.
    intros [= <-] _. repeat split; try reflexivity. now exists th.
  - intros [= <-] He. apply float_raises in Ef. subst e'. discriminate.
Qed.

Lemma parse_row_platform_none (row : csv_row) (th : Q) :
  platform_is_none row ->
  field_truthy (get row "name") = true -> field_truthy (get row "url") = true ->
  threshold_clean row <> "" -> float (threshold_clean row) = Ok th ->
  parse_row row = Raise AttributeError.
Proof.
  unfold platform_is_none. intros Hpf Hn Hu Hc Hf. rewrite parse_row_eq.
  unfold get, get_or_empty in *.
  destruct (threshold_clean row) as [|a cleaned]; [contradiction|].
  rewrite Hf, Hpf.
  destruct (row !! "name") as [[|[|a1 nm]]|]; try discriminate.
  destruct (row !! "url") as [[|[|a2 u]]|]; try discriminate.
  reflexivity.
Qed.

(** Without such a row, the loop returns the products of the rows, in
    the order of the rows. *)
Lemma read_rows_in_order (rows : list csv_row) (acc : list product) :
  Forall (fun row => ~ platform_is_none row) rows ->
  read_rows rows acc = Ok (acc ++ flat_map products_of_row rows)%list.
Proof.
  intros H. revert acc. induction H as [|row rest Hrow _ IH]; intros acc; simpl.
  - now rewrite app_nil_r.
  - unfold products_of_row at 1. unfold try_except.
    destruct (parse_row row) as [[p|]|e] eqn:E; simpl.
    + rewrite IH, <- app_assoc. reflexivity.
    + apply IH.
    + destruct (row_errors e) eqn:Ee; simpl; [apply IH|].
      destruct (parse_row_uncaught row e E Ee) as (_ & Hpf & _). contradiction.
Qed.

(** A row that lets an exception out ends the loop with it. *)
Lemma read_rows_uncaught (rows : list csv_row) (acc : list product) (row : csv_row) :
  In row rows -> parse_row row = Raise AttributeError ->
  read_rows rows acc = Raise AttributeError.
Proof.
  revert acc. induction rows as [|r rest IH]; intros acc; [intros []|].
  intros Hin Hrow. simpl. unfold try_except.
  destruct (parse_row r) as [[p|]|e] eqn:E; simpl.
  - destruct Hin as [->|Hin]; [congruence | now apply IH].
  - destruct Hin as [->|Hin]; [congruence | now apply IH].
  - destruct (row_errors e) eqn:Ee; simpl.
    + destruct Hin as [->|Hin]; [|now apply IH].
      rewrite Hrow in E. injection E as <-. discriminate.
    + now destruct (parse_row_uncaught r e E Ee) as (-> & _).
Qed.



(** X16. One row with a valid threshold, a name and a URL, whose platform is
    [None], empties the result: [fetch_products] returns no product at
    all, whatever the other rows are. *)
Theorem fetch_products_platform_none (rows : list csv_row) (row : csv_row) (th : Q) :
  In row rows ->
  platform_is_none row ->
  field_truthy (get row "name") = true -> field_truthy (get row "url") = true ->
  threshold_clean row <> "" -> float (threshold_clean row) = Ok th ->
  fetch_products (Some rows) = Ok [].
Proof.
  intros Hin Hpf Hn Hu Hc Hf.
  pose proof (parse_row_platform_none row th Hpf Hn Hu Hc Hf) as Hrow.
  unfold fetch_products, open_catalog, bind.
  now rewrite (read_rows_uncaught rows [] row Hin Hrow).
Qed.

Lemma fetch_products_platform_none_witness :
  let short := <["platform" := PyNone]> (catalog_row "Mug" "https://www.amazon.in/mug" "" "250") in
  let rows := [catalog_row "Widget" "https://www.amazon.in/widget" "amazon" "100"; short] in
  In short rows /\ platform_is_none short
  /\ field_truthy (get short "name") = true /\ field_truthy (get short "url") = true
  /\ threshold_clean short <> "" /\ float (threshold_clean short) = Ok 250
  /\ fetch_products (Some rows) = Ok []
  /\ fetch_products
       (Some [catalog_row "Widget" "https://www.amazon.in/widget" "amazon" "100"])
     = Ok [example_widget].
Proof.
  intros short rows.
  assert (Hin : In short rows) by (right; now left).
  assert (Hpf : platform_is_none short) by (vm_compute; reflexivity).
  assert (Hn : field_truthy (get short "name") = true) by (vm_compute; reflexivity).
  assert (Hu : field_truthy (get short "url") = true) by (vm_compute; reflexivity).
  assert (Hc : threshold_clean short <> "") by (vm_compute; discriminate).
  assert (Hf : float (threshold_clean short) = Ok 250) by (vm_compute; reflexivity).
  repeat (split; [assumption|]).
  split; [exact (fetch_products_platform_none rows short 250 Hin Hpf Hn Hu Hc Hf)|].
  vm_compute. reflexivity.
Defined.

(** X17. Every product that [fetch_products] returns has a threshold that is
    not negative, a name and a URL that a second [strip] leaves as they
    are, and a platform that [lower] and [strip] leave as it is. *)
Theorem fetch_products_normalizes (file : catalog) (ps : list product) (p : product) :
  fetch_products file = Ok ps -> In p ps ->
  0 <= p_threshold p
  /\ strip (p_name p) = p_name p /\ strip (p_url p) = p_url p
  /\ lower (p_platform p) = p_platform p /\ strip (p_platform p) = p_platform p.
Proof.
  intros Hf Hin. destruct file as [rows|]; [|injection Hf as <-; destruct Hin].
  destruct (fetch_products_rows rows ps p Hf Hin) as (row & _ & Hp).
  rewrite parse_row_eq in Hp.
  destruct (threshold_clean row) as [|a cleaned]; [discriminate|].
  destruct (float (String a cleaned)) as [th|e] eqn:Ef; [|discriminate].
  destruct (row !! "name") as [[|[|a1 nm]]|]; try discriminate.
  destruct (row !! "url") as [[|[|a2 u]]|]; try discriminate.
  destruct (get_or_empty row "platform") as [|pf]; [discriminate|].
  injection Hp as <-. simpl.
  split; [now apply float_nonneg in Ef|].
  rewrite !strip_idempotent, lower_strip, lower_idempotent.
  repeat split; reflexivity.
Qed.

Lemma fetch_products_normalizes_witness :
  fetch_products example_catalog = Ok [example_widget; example_gadget; example_lamp]
  /\ In example_lamp [example_widget; example_gadget; example_lamp]
  /\ 0 <= p_threshold example_lamp
  /\ strip (p_name example_lamp) = p_name example_lamp
  /\ strip (p_url example_lamp) = p_url example_lamp
  /\ lower (p_platform example_lamp) = p_platform example_lamp
  /\ strip (p_platform example_lamp) = p_platform example_lamp.
Proof.
  assert (Hin : In example_lamp [example_widget; example_gadget; example_lamp])
    by (right; right; now left).
  split; [exact example_catalog_products|]. split; [exact Hin|].
  exact (fetch_products_normalizes example_catalog _ example_lamp
           example_catalog_products Hin).
Defined.

End CatalogFacts.

(** ** The summary route *)

Section SummaryRoute.
Import Py Common Db App.

Lemma entry_of_none (n : string) (l : list summary) :
  entry_of n l = None <-> ~ In n (map s_name l).
Proof.
  unfold entry_of. split.
  - intros H Hin. apply in_map_iff in Hin as (e & <- & Hin).
    apply find_none with (x := e) in H; [|assumption].
    now rewrite String.eqb_refl in H.
  - intros H. destruct (List.find _ l) as [e|] eqn:E; [|reflexivity].
    apply find_some in E as [Hin Hn]. apply String.eqb_eq in Hn.
    exfalso. apply H. rewrite <- Hn. now apply in_map.
Qed.

(** With one entry per name, the dictionary of the route holds, under a
    name, the entry of that name. *)
Lemma db_dict_lookup (l : list summary) (acc : gmap string summary) (n : string) :
  List.NoDup (map s_name l) ->
  foldl (fun d item => <[s_name item := item]> d) acc l !! n
  = match entry_of n l with
    | Some e => Some e
    | None => acc !! n
    end.
Proof.
  revert acc. induction l as [|x l IH]; intros acc Hnd; [reflexivity|].
  simpl in Hnd. apply List.NoDup_cons_iff in Hnd as [Hx Hnd].
  simpl. rewrite IH by assumption.
  change (entry_of n (x :: l))
    with (if String.eqb (s_name x) n then Some x else entry_of n l).
  destruct (String.eqb (s_name x) n) eqn:E.
  - apply String.eqb_eq in E. subst n.
    rewrite (proj2 (entry_of_none (s_name x) l) Hx).
    apply lookup_insert_eq.
  - apply String.eqb_neq in E.
    destruct (entry_of n l); [reflexivity|]. now apply lookup_insert_ne.
Qed.

(** X18. [GET /api/products/summary] always succeeds. It shows the products
    of the catalog, each once and in the order of the catalog, with the
    name, URL, platform and threshold of the catalog; a product with
    rows in the ledger has the price fields of its summary entry, a
    product without rows has none; a product of the ledger that is not
    in the catalog is not shown. *)
Theorem summary_route_follows_catalog (file : catalog) (t : table) :
  exists products l data,
    fetch_products file = Ok products
    /\ get_product_summary t = Ok l
    /\ get_products_summary file t = Success data
    /\ map m_name data = map p_name products
    /\ Forall2 (fun q item => shown_for q (entry_of (p_name q) l) item) products data
    /\ forall n, entry_of n l = None <-> with_name n t = [].
Proof.
  destruct (fetch_products_ok file) as [products Hp].
  destruct (get_product_summary_names t) as (l & Hl & Hnd & Hnames).
  exists products, l, (map (merge_product (db_dict_of l)) products).
  split; [assumption|]. split; [assumption|]. split; [|split; [|split]].
  - unfold get_products_summary. now rewrite Hp, Hl.
  - rewrite map_map. apply map_ext. intros q. unfold merge_product.
    now destruct (db_dict_of l !! p_name q).
  - clear Hp. induction products as [|q rest IH]; [constructor|].
    simpl. constructor; [|exact IH].
    unfold merge_product, db_dict_of, shown_for.
    rewrite db_dict_lookup by assumption. rewrite lookup_empty.
    destruct (entry_of (p_name q) l); simpl; repeat split; reflexivity.
  - intros n. rewrite entry_of_none, Hnames.
    destruct (with_name n t); split; [tauto | congruence | | discriminate].
    intros H. exfalso. apply H. discriminate.
Qed.

End SummaryRoute.

(** *** More runs on the example catalogs *)

Section MoreExamples.
Import Py Common Scraper.

Local Abbreviation run :=
  (track_prices unit example_amazon example_flipkart).


Lemma run_only_appends_rows_witness :
  fetch_products example_catalog = Ok [example_widget; example_gadget; example_lamp]
  /\ exists new,
      db (final_world (run example_catalog tt initial_world))
      = (db initial_world ++ new)%list
      /\ Forall (written_for unit example_amazon example_flipkart tt
                             [example_widget; example_gadget; example_lamp]) new.
Proof.
  split; [exact example_catalog_products|].
  exact (run_only_appends_rows
           unit example_amazon example_flipkart example_catalog tt
           [example_widget; example_gadget; example_lamp] initial_world
           example_catalog_products).
Defined.


(** The run on the catalog with the broken page: the widget is recorded,
    the lamp is not, and the eligible widget is not reported. *)
Example broken_run :
  exists w',
    track_prices unit broken_amazon example_flipkart broken_catalog tt initial_world
    = Threw ZeroDivisionError w'
    /\ map observation (db w')
       = [("Widget", "https://www.amazon.in/widget", "amazon", 90, Some 120, 100)]
    /\ emails w' = [].
Proof.
  eexists. split; [vm_compute; reflexivity|]. split; reflexivity.
Qed.

Lemma price_table_has_one_line_per_name_example :
  exists lines,
    display_price_table [widget_info; widget_info] initial_world
    = Done tt (printed [PriceTable lines] initial_world)
    /\ map t_name lines = ["Widget"].
Proof.
  eexists. split; [vm_compute; reflexivity|]. reflexivity.
Qed.

End MoreExamples.
